(** * Collective-signing PBFT ordering: processor, commit requests and roster

    A shallow embedding of three pieces of the repository:

    - [ledger/byzcoin/roster.go]: the roster (collective authority) and its
      factory;
    - [consensus/cosipbft/requests.go]: the prepare and commit requests;
    - [core/ordering/cosipbft/proc.go]: the processor that routes the
      messages of the collective signature module and of the RPC.

    The packages these files are wired to (the PBFT state machine, the hash
    tree, the roster factory, the signatures) enter as parameters.  The
    entries of the slices of a roster are interface values, modelled as
    [option] with [None] for nil.  A Go call returns, panics or stays
    blocked: see [outcome]. *)

From Stdlib Require Import ZArith NArith Strings.String Strings.Byte.
From stdpp Require Import base option list.

Local Open Scope Z_scope.

(** ** Results of Go calls *)

(** The errors built by the embedded files.  [Failure] is an error raised by
    a collaborator; [Errorf msg cause] is [xerrors.Errorf(msg + ": %v", cause)]. *)
Inductive error : Type :=
| Failure (msg : string)
| Errorf (msg : string) (cause : error)
| InvalidMessageType (type_name : string)
| MismatchArrayLength (addresses public_keys : nat)
| UnsupportedMessage (type_name : string)
| MismatchTreeRoot (expected actual : list byte).

(** A Go pair [(value, error)]. *)
Inductive result (A : Type) : Type :=
| Ok (a : A)
| Err (e : error).
Arguments Ok {A} a.
Arguments Err {A} e.

(** What a call does: it returns, it panics (index out of range, method call
    on a nil interface, close of a closed channel), or it is still blocked on
    a channel when the modelled environment has nothing more to deliver. *)
Inductive outcome (A : Type) : Type :=
| Return (a : A)
| Panic
| Blocked.
Arguments Return {A} a.
Arguments Panic {A}.
Arguments Blocked {A}.

#[global] Instance byte_eq_decision : EqDecision byte := Byte.byte_eq_dec.

Definition is_Err {A} (r : result A) : Prop :=
  match r with Err _ => True | Ok _ => False end.

(** [s[k]] for a Go [int] index: out of range is [None] (the caller panics). *)
Definition index {A} (s : list A) (k : Z) : option A :=
  if k <? 0 then None else s !! Z.to_nat k.

(** [make([]T, n)] for an interface type [T]: [n] nil values. *)
Definition make {A} (n : nat) : list (option A) := replicate n None.

(** ** ledger/byzcoin/roster.go *)

Module Roster.
Section Roster.

(** [mino.Address] and [crypto.PublicKey] are interfaces of other packages;
    [Equal] is the method [addr.Equal(target)] of a non-nil address. *)
Context {Address PublicKey : Type}.
Variable Equal : Address -> Address -> bool.

(** [viewchange.ChangeSet] and the protobuf [any.Any] are declared outside
    of the embedded files. *)
Context {ChangeSet Any : Type}.

(** The two factories of [rosterFactory]. *)
Variable addressFactory_FromText : list byte -> option Address.
Variable pubkeyFactory_FromProto : Any -> result (option PublicKey).

Record roster : Type := {
  addrs : list (option Address);
  pubkeys : list (option PublicKey)
}.

(** Writes [newRoster.addrs[i] = a] and [newRoster.pubkeys[i] = p]. *)
Definition set_addr (i : nat) (a : option Address) (r : roster) : roster :=
  {| addrs := <[i := a]> (addrs r); pubkeys := pubkeys r |}.
Definition set_pubkey (i : nat) (p : option PublicKey) (r : roster) : roster :=
  {| addrs := addrs r; pubkeys := <[i := p]> (pubkeys r) |}.

(** The loop of [Take] from position [i] on: [for i, k := range Indices]. *)
Fixpoint Take_loop (r : roster) (i : nat) (indices : list Z)
    (newRoster : roster) : outcome roster :=
  match indices with
  | [] => Return newRoster
  | k :: rest =>
    match index (addrs r) k with
    | None => Panic
    | Some a =>
      let newRoster := set_addr i a newRoster in
      match index (pubkeys r) k with
      | None => Panic
      | Some p => Take_loop r (S i) rest (set_pubkey i p newRoster)
      end
    end
  end.

(** [Take]: the argument is [mino.ApplyFilters(updaters).Indices]. *)
Definition Take (r : roster) (indices : list Z) : outcome roster :=
  Take_loop r 0 indices
    {| addrs := make (length indices); pubkeys := make (length indices) |}.

(** [Apply]: the body is [return r]. *)
Definition Apply (r : roster) (_ : ChangeSet) : roster := r.

Definition Len (r : roster) : nat := length (addrs r).

(** The loop of [GetPublicKey] from position [i] on. *)
Fixpoint GetPublicKey_loop (i : nat) (rest : list (option Address))
    (r : roster) (target : Address) : outcome (option PublicKey * Z) :=
  match rest with
  | [] => Return (None, -1)
  | None :: _ => Panic
  | Some addr :: rest =>
    if Equal addr target then
      match pubkeys r !! i with
      | None => Panic
      | Some p => Return (p, Z.of_nat i)
      end
    else GetPublicKey_loop (S i) rest r target
  end.

Definition GetPublicKey (r : roster) (target : Address)
  : outcome (option PublicKey * Z) :=
  GetPublicKey_loop 0 (addrs r) r target.

(** A [crypto.CollectiveAuthority] as [New] sees it: what [Len()] returns
    and the values its two iterators yield until [HasNext()] is false. *)
Record CollectiveAuthority : Type := {
  ca_Len : Z;
  ca_addresses : list (option Address);
  ca_publicKeys : list (option PublicKey)
}.

(** The loop of [New]: it runs while both iterators have a next value. *)
Fixpoint New_loop (i : nat) (addrIter : list (option Address))
    (pubkeyIter : list (option PublicKey)) (r : roster) : outcome roster :=
  match addrIter, pubkeyIter with
  | a :: addrIter, p :: pubkeyIter =>
    if decide (i < length (addrs r))%nat then
      New_loop (S i) addrIter pubkeyIter (set_pubkey i p (set_addr i a r))
    else Panic
  | _, _ => Return r
  end.

Definition New (authority : CollectiveAuthority) : outcome roster :=
  if ca_Len authority <? 0 then Panic
  else
    let n := Z.to_nat (ca_Len authority) in
    New_loop 0 (ca_addresses authority) (ca_publicKeys authority)
      {| addrs := make n; pubkeys := make n |}.

(** The [proto.Message] values [FromProto] distinguishes: a [*Roster]
    (possibly a nil pointer) or a message of another type. *)
Inductive proto_Message : Type :=
| RosterPb (Addresses : list (list byte)) (PublicKeys : list Any)
| NilRosterPb
| OtherPb (type_name : string).

(** The loop of [FromProto] over [pb.GetAddresses()]. *)
Fixpoint FromProto_loop (i : nat) (rest : list (list byte))
    (PublicKeys : list Any) (r : roster) : outcome (result roster) :=
  match rest with
  | [] => Return (Ok r)
  | addrpb :: rest =>
    let r := set_addr i (addressFactory_FromText addrpb) r in
    match PublicKeys !! i with
    | None => Panic
    | Some pk =>
      match pubkeyFactory_FromProto pk with
      | Err e => Return (Err (Errorf "couldn't decode public key" e))
      | Ok pubkey => FromProto_loop (S i) rest PublicKeys (set_pubkey i pubkey r)
      end
    end
  end.

Definition FromProto (msg : proto_Message) : outcome (result roster) :=
  match msg with
  | OtherPb t => Return (Err (InvalidMessageType t))
  | NilRosterPb => Panic
  | RosterPb Addresses PublicKeys =>
    if decide (length Addresses = length PublicKeys) then
      FromProto_loop 0 Addresses PublicKeys
        {| addrs := make (length Addresses);
           pubkeys := make (length PublicKeys) |}
    else
      Return (Err (MismatchArrayLength (length Addresses) (length PublicKeys)))
  end.

(** The invariant of a roster: as many addresses as public keys. *)
Definition paired (r : roster) : Prop :=
  length (addrs r) = length (pubkeys r).

(** *** The iterators *)

(** [iterator]: a position in a copy of the roster. *)
Record iterator : Type := {
  it_index : Z;
  it_roster : roster
}.

Definition HasNext (i : iterator) : bool :=
  it_index i <? Z.of_nat (Len (it_roster i)).

(** [GetNext] of [*iterator]: the position, and the iterator moved by one. *)
Definition GetNext (i : iterator) : Z * iterator :=
  (it_index i, {| it_index := it_index i + 1; it_roster := it_roster i |}).

(** [GetNext] of [*addressIterator]: nil once the end is reached. *)
Definition addressIterator_GetNext (i : iterator)
  : outcome (option Address * iterator) :=
  if HasNext i then
    let '(k, next) := GetNext i in
    match index (addrs (it_roster i)) k with
    | Some a => Return (a, next)
    | None => Panic
    end
  else Return (None, i).

(** [GetNext] of [*publicKeyIterator]. *)
Definition publicKeyIterator_GetNext (i : iterator)
  : outcome (option PublicKey * iterator) :=
  if HasNext i then
    let '(k, next) := GetNext i in
    match index (pubkeys (it_roster i)) k with
    | Some p => Return (p, next)
    | None => Panic
    end
  else Return (None, i).

Definition AddressIterator (r : roster) : iterator :=
  {| it_index := 0; it_roster := r |}.

Definition PublicKeyIterator (r : roster) : iterator :=
  {| it_index := 0; it_roster := r |}.

(** The values [GetNext] yields while [HasNext] holds, as a loop over the
    iterator collects them; [fuel] bounds the number of rounds. *)
Fixpoint addresses_yielded (fuel : nat) (i : iterator)
  : outcome (list (option Address)) :=
  if HasNext i then
    match fuel with
    | O => Blocked
    | S fuel =>
      match addressIterator_GetNext i with
      | Return (a, next) =>
        match addresses_yielded fuel next with
        | Return l => Return (a :: l)
        | Panic => Panic
        | Blocked => Blocked
        end
      | Panic => Panic
      | Blocked => Blocked
      end
    end
  else Return [].

Fixpoint publicKeys_yielded (fuel : nat) (i : iterator)
  : outcome (list (option PublicKey)) :=
  if HasNext i then
    match fuel with
    | O => Blocked
    | S fuel =>
      match publicKeyIterator_GetNext i with
      | Return (p, next) =>
        match publicKeys_yielded fuel next with
        | Return l => Return (p :: l)
        | Panic => Panic
        | Blocked => Blocked
        end
      | Panic => Panic
      | Blocked => Blocked
      end
    end
  else Return [].

(** The roster as the [crypto.CollectiveAuthority] it implements: its
    length and what its two iterators yield. *)
Definition roster_as_authority (fuel : nat) (r : roster)
  : outcome CollectiveAuthority :=
  match addresses_yielded fuel (AddressIterator r) with
  | Return a =>
    match publicKeys_yielded fuel (PublicKeyIterator r) with
    | Return p =>
      Return {| ca_Len := Z.of_nat (Len r); ca_addresses := a; ca_publicKeys := p |}
    | Panic => Panic
    | Blocked => Blocked
    end
  | Panic => Panic
  | Blocked => Blocked
  end.

(** *** Pack *)

(** [addr.MarshalText()] of a non-nil address, [enc.PackAny(pubkey)] and the
    nil pointer [make([]*any.Any, n)] fills its slice with. *)
Variable MarshalText : Address -> result (list byte).
Variable PackAny : option PublicKey -> result Any.
Variable nil_Any : Any.

(** The loop of [Pack] from position [i] on. *)
Fixpoint Pack_loop (i : nat) (rest : list (option Address)) (r : roster)
    (addrs_ : list (list byte)) (pubkeys_ : list Any)
  : outcome (result (list (list byte) * list Any)) :=
  match rest with
  | [] => Return (Ok (addrs_, pubkeys_))
  | None :: _ => Panic
  | Some addr :: rest =>
    match MarshalText addr with
    | Err e => Return (Err (Errorf "couldn't marshal address" e))
    | Ok text =>
      let addrs_ := <[i := text]> addrs_ in
      match pubkeys r !! i with
      | None => Panic
      | Some p =>
        match PackAny p with
        | Err e => Return (Err (Errorf "couldn't pack public key" e))
        | Ok any => Pack_loop (S i) rest r addrs_ (<[i := any]> pubkeys_)
        end
      end
    end
  end.

Definition Pack (r : roster) : outcome (result proto_Message) :=
  match Pack_loop 0 (addrs r) r (replicate (Len r) []) (replicate (Len r) nil_Any) with
  | Return (Ok (addrs_, pubkeys_)) => Return (Ok (RosterPb addrs_ pubkeys_))
  | Return (Err e) => Return (Err e)
  | Panic => Panic
  | Blocked => Blocked
  end.

End Roster.
End Roster.

(** ** consensus/cosipbft/requests.go *)

Module Requests.
Section Requests.

(** [consensus.Proposal] and [crypto.Signature] with its method
    [MarshalBinary() ([]byte, error)]. *)
Context {Proposal Signature : Type}.
Variable MarshalBinary : Signature -> result (list byte).

Record Prepare : Type := {
  proposal : Proposal;
  digest : list byte
}.

Definition Prepare_GetHash (p : Prepare) : list byte := digest p.

Record Commit : Type := {
  to : list byte;
  prepare : Signature;
  hash : list byte
}.

Definition newCommitRequest (to : list byte) (prepare : Signature)
  : result Commit :=
  match MarshalBinary prepare with
  | Err e => Err (Errorf "couldn't marshal prepare signature" e)
  | Ok buffer => Ok {| to := to; prepare := prepare; hash := buffer |}
  end.

Definition GetHash (c : Commit) : list byte := hash c.

(** The protobuf messages [PrepareRequest] and [CommitRequest], and
    [enc.PackAny] on a proposal and on a signature. *)
Context {Any : Type}.
Variable PackAny_proposal : Proposal -> result Any.
Variable PackAny_signature : Signature -> result Any.

Record PrepareRequest : Type := { pb_Proposal : Any }.

Record CommitRequest : Type := {
  pb_To : list byte;
  pb_Prepare : Any
}.

Definition Prepare_Pack (p : Prepare) : result PrepareRequest :=
  match PackAny_proposal (proposal p) with
  | Err e => Err (Errorf "couldn't pack proposal" e)
  | Ok any => Ok {| pb_Proposal := any |}
  end.

Definition Commit_Pack (c : Commit) : result CommitRequest :=
  match PackAny_signature (prepare c) with
  | Err e => Err (Errorf "couldn't pack prepare signature" e)
  | Ok any => Ok {| pb_To := to c; pb_Prepare := any |}
  end.

End Requests.
End Requests.

(** ** core/ordering/cosipbft/proc.go *)

Module Processor.

(** [types.Digest] is [[32]byte]. *)
Definition Digest : Type := list byte.

(** [var keyRoster = [32]byte{}] *)
Definition keyRoster : list byte := replicate 32 x00.

(** [root := types.Digest{}; copy(root[:], src)]: the first 32 bytes of
    [src], the rest of the array left at zero. *)
Definition copy_Digest (src : list byte) : Digest :=
  take 32 (src ++ replicate 32 x00).

(** [ordering.Event] *)
Record Event : Type := { Index : N }.

Section Processor.

(** Types of the packages the processor is wired to. *)
Context {Address Block BlockLink Signature Authority Genesis : Type}.
Context {Tree Snapshot StateMachine : Type}.

(** The [serde.Message] values the two switches distinguish. *)
Inductive Message : Type :=
| BlockMessage (block : Block)
| CommitMessage (id : Digest) (signature : Signature)
| GenesisMessage (genesis : Genesis)
| DoneMessage (id : Digest) (signature : Signature)
| ViewMessage (id : Digest) (leader : N)
| OtherMessage (type_name : string).

(** What [%T] prints. *)
Definition type_of (msg : Message) : string :=
  match msg with
  | BlockMessage _ => "types.BlockMessage"
  | CommitMessage _ _ => "types.CommitMessage"
  | GenesisMessage _ => "types.GenesisMessage"
  | DoneMessage _ _ => "types.DoneMessage"
  | ViewMessage _ _ => "types.ViewMessage"
  | OtherMessage t => t
  end.

(** [mino.Request] *)
Record Request : Type := {
  req_Address : Address;
  req_Message : Message
}.

(** [pbft.View] *)
Record View : Type := {
  From : Address;
  ID : Digest;
  Leader : N
}.

(** The state reachable from a [*processor].
    - [pbftsm]: the state of the PBFT state machine;
    - [sync]: what [h.sync.GetLatest()] returns;
    - [tree]: the tree the cache [h.tree] holds;
    - [watcher]: the events notified so far, oldest first;
    - [genesis]: the slot of the genesis store;
    - [blocks]: the links of the block store, oldest first;
    - [started]: whether the channel [h.started] has been closed. *)
Record processor : Type := {
  pbftsm : StateMachine;
  sync : N;
  tree : Tree;
  watcher : list Event;
  genesis : option Genesis;
  blocks : list BlockLink;
  started : bool
}.

(** [pbft.StateMachine].  The state machine is built on the same stores as
    the processor, so its methods transform the whole state.  A returned
    [error] is [None] when nil. *)
Class PBFT : Type := {
  pbft_Prepare : processor -> Block -> result Digest * processor;
  pbft_Commit : processor -> Digest -> Signature -> option error * processor;
  pbft_Finalize : processor -> Digest -> Signature -> option error * processor;
  pbft_Accept : processor -> View -> processor
}.

(** [hashtree.Tree], [hashtree.StagingTree] and [store.Snapshot].  A staging
    callback returns the snapshot it has written to, or its error;
    [Tree_Commit] returns the staged tree once persisted. *)
Class Hashtree : Type := {
  Tree_Get : Tree -> list byte -> result (list byte);
  Tree_GetRoot : Tree -> list byte;
  Tree_Stage : Tree -> (Snapshot -> result Snapshot) -> result Tree;
  Tree_Commit : Tree -> result Tree;
  Snapshot_Set : Snapshot -> list byte -> list byte -> result Snapshot
}.

(** The remaining methods of the collaborators: blocks and links, the
    signature, the roster with its factory, and the genesis block. *)
Class Types : Type := {
  GetIndex : Block -> N;
  GetBlock : BlockLink -> Block;
  MarshalBinary : Signature -> result (list byte);
  Serialize : Authority -> result (list byte);
  AuthorityOf : list byte -> result Authority;
  NewGenesis : Authority -> Digest -> result Genesis;
  GetRoster : Genesis -> Authority;
  GetRoot : Genesis -> Digest
}.

Context `{!PBFT, !Hashtree, !Types}.

(** Modelled from the spec: the genesis store is missing from the sources;
    it is a singleton slot, [Exists()] tells whether it is filled and
    [Set(genesis)] fails with ALREADY_SET if a genesis is already present. *)
Definition genesis_Exists (slot : option Genesis) : bool :=
  match slot with Some _ => true | None => false end.

Definition genesis_Set (slot : option Genesis) (g : Genesis)
  : result (option Genesis) :=
  match slot with
  | Some _ => Err (Failure "ALREADY_SET")
  | None => Ok (Some g)
  end.

(** [h.blocks.Len()] *)
Definition blocks_Len (h : processor) : N := N.of_nat (length (blocks h)).

Definition set_pbftsm (h : processor) (s : StateMachine) : processor :=
  {| pbftsm := s; sync := sync h; tree := tree h; watcher := watcher h;
     genesis := genesis h; blocks := blocks h; started := started h |}.

(** [h.tree.Set(t)] *)
Definition tree_Set (h : processor) (t : Tree) : processor :=
  {| pbftsm := pbftsm h; sync := sync h; tree := t; watcher := watcher h;
     genesis := genesis h; blocks := blocks h; started := started h |}.

Definition set_genesis (h : processor) (slot : option Genesis) : processor :=
  {| pbftsm := pbftsm h; sync := sync h; tree := tree h; watcher := watcher h;
     genesis := slot; blocks := blocks h; started := started h |}.

(** [h.watcher.Notify(e)] *)
Definition watcher_Notify (h : processor) (e : Event) : processor :=
  {| pbftsm := pbftsm h; sync := sync h; tree := tree h;
     watcher := watcher h ++ [e];
     genesis := genesis h; blocks := blocks h; started := started h |}.

(** [close(h.started)]: closing a closed channel panics. *)
Definition close_started (h : processor) : option processor :=
  if started h then None
  else Some {| pbftsm := pbftsm h; sync := sync h; tree := tree h;
               watcher := watcher h; genesis := genesis h;
               blocks := blocks h; started := true |}.

(** A link stored by another routine while the handler waits: the block
    store holds it and the channel of [h.blocks.Watch(ctx)] delivers it. *)
Definition store_link (h : processor) (link : BlockLink) : processor :=
  {| pbftsm := pbftsm h; sync := sync h; tree := tree h; watcher := watcher h;
     genesis := genesis h; blocks := blocks h ++ [link]; started := started h |}.

(** [for link := range blocks { if index >= latest { cancel() } }] over the
    links [watch] the channel delivers.  [cancel()] closes the channel and
    ends the loop; with nothing left to receive from an open channel the
    loop is blocked: the result is [false].  [h.sync.GetLatest()] is read at
    each link; no other routine changes it in this model. *)
Fixpoint catch_up (h : processor) (watch : list BlockLink) : bool * processor :=
  match watch with
  | [] => (false, h)
  | link :: watch =>
    let h := store_link h link in
    if (sync h <=? GetIndex (GetBlock link))%N then (true, h)
    else catch_up h watch
  end.

(** [Invoke]: [watch] holds the links the channel of [h.blocks.Watch(ctx)]
    delivers during the call. *)
Definition Invoke (h : processor) (from : Address) (msg : Message)
    (watch : list BlockLink) : outcome (result (list byte)) * processor :=
  match msg with
  | BlockMessage block =>
    let '(ready, h) :=
      if (blocks_Len h <? sync h)%N then catch_up h watch else (true, h) in
    if ready then
      match pbft_Prepare h block with
      | (Err e, h) => (Return (Err (Errorf "pbft prepare failed" e)), h)
      | (Ok digest, h) => (Return (Ok digest), h)
      end
    else (Blocked, h)
  | CommitMessage id signature =>
    match pbft_Commit h id signature with
    | (Some e, h) => (Return (Err (Errorf "pbft commit failed" e)), h)
    | (None, h) =>
      match MarshalBinary signature with
      | Err e => (Return (Err (Errorf "couldn't marshal signature" e)), h)
      | Ok buffer => (Return (Ok buffer), h)
      end
    end
  | _ => (Return (Err (UnsupportedMessage (type_of msg))), h)
  end.

(** [match != nil && *match != root], with the error it leads to. *)
Definition root_mismatch (match_ : option Digest) (root : Digest)
  : option error :=
  match match_ with
  | None => None
  | Some expected =>
    if decide (expected = root) then None
    else Some (MismatchTreeRoot expected root)
  end.

(** [storeGenesis]: [match_] is [None] for a nil pointer. *)
Definition storeGenesis (h : processor) (roster : Authority)
    (match_ : option Digest) : outcome (option error) * processor :=
  match Serialize roster with
  | Err e => (Return (Some (Errorf "failed to serialize roster" e)), h)
  | Ok value =>
    match Tree_Stage (tree h) (fun snap => Snapshot_Set snap keyRoster value) with
    | Err e => (Return (Some (Errorf "tree stage failed" e)), h)
    | Ok stageTree =>
      let root := copy_Digest (Tree_GetRoot stageTree) in
      match root_mismatch match_ root with
      | Some e => (Return (Some e), h)
      | None =>
        match NewGenesis roster root with
        | Err e => (Return (Some (Errorf "creating genesis" e)), h)
        | Ok genesis =>
          match Tree_Commit stageTree with
          | Err e => (Return (Some (Errorf "tree commit failed" e)), h)
          | Ok stageTree =>
            let h := tree_Set h stageTree in
            match genesis_Set (Processor.genesis h) genesis with
            | Err e => (Return (Some (Errorf "set genesis failed" e)), h)
            | Ok slot =>
              let h := set_genesis h slot in
              let h := watcher_Notify h {| Index := 0 |} in
              match close_started h with
              | None => (Panic, h)
              | Some h => (Return None, h)
              end
            end
          end
        end
      end
    end
  end.

(** [Process]: the returned message is always nil. *)
Definition Process (h : processor) (req : Request)
  : outcome (result (option Message)) * processor :=
  match req_Message req with
  | GenesisMessage msg =>
    if genesis_Exists (genesis h) then (Return (Ok None), h)
    else
      let root := GetRoot msg in
      match storeGenesis h (GetRoster msg) (Some root) with
      | (Return (Some e), h) => (Return (Err e), h)
      | (Return None, h) => (Return (Ok None), h)
      | (Panic, h) => (Panic, h)
      | (Blocked, h) => (Blocked, h)
      end
  | DoneMessage id signature =>
    match pbft_Finalize h id signature with
    | (Some e, h) => (Return (Err (Errorf "pbftsm finalized failed" e)), h)
    | (None, h) => (Return (Ok None), h)
    end
  | ViewMessage id leader =>
    let view := {| From := req_Address req; ID := id; Leader := leader |} in
    (Return (Ok None), pbft_Accept h view)
  | _ => (Return (Err (UnsupportedMessage (type_of (req_Message req)))), h)
  end.

Definition readRoster (t : Tree) : result Authority :=
  match Tree_Get t keyRoster with
  | Err e => Err (Errorf "read from tree" e)
  | Ok data =>
    match AuthorityOf data with
    | Err e => Err (Errorf "decode failed" e)
    | Ok roster => Ok roster
    end
  end.

Definition getCurrentRoster (h : processor) : result Authority :=
  readRoster (tree h).

(** The same request delivered [n] times in a row to [Process]: the
    outcomes in order and the final state. *)
Fixpoint deliver (n : nat) (h : processor) (req : Request)
  : list (outcome (result (option Message))) * processor :=
  match n with
  | O => ([], h)
  | S n =>
    let '(o, h) := Process h req in
    let '(os, h) := deliver n h req in
    (o :: os, h)
  end.

(** The reply of [Invoke] to a [BlockMessage] once [Prepare] has run. *)
Definition prepare_reply (r : result Digest * processor)
  : outcome (result (list byte)) * processor :=
  match r with
  | (Err e, h) => (Return (Err (Errorf "pbft prepare failed" e)), h)
  | (Ok digest, h) => (Return (Ok digest), h)
  end.

(** The links below the latest known index. *)
Definition behind (h : processor) (link : BlockLink) : Prop :=
  (GetIndex (GetBlock link) < sync h)%N.

(** The state a successful [storeGenesis] leaves. *)
Definition bootstrap (h : processor) (committed : Tree) (g : Genesis) : processor :=
  {| pbftsm := pbftsm h; sync := sync h; tree := committed;
     watcher := watcher h ++ [{| Index := 0 |}]; genesis := Some g;
     blocks := blocks h; started := true |}.

(** A call is rejected when it returns a non-nil error. *)
Definition rejected {A} (o : outcome (result A)) : Prop :=
  match o with
  | Return (Err _) => True
  | _ => False
  end.

(** The messages of the consensus rounds, as opposed to the genesis. *)
Definition consensus_message (msg : Message) : bool :=
  match msg with
  | BlockMessage _ | CommitMessage _ _ | DoneMessage _ _ | ViewMessage _ _ => true
  | _ => false
  end.

(** The five kinds of messages the processor knows. *)
Definition recognized (msg : Message) : bool :=
  match msg with
  | OtherMessage _ => false
  | _ => true
  end.

(** The contract of the tree the round trip of the roster relies on: a key
    written while staging is read back from the tree once committed. *)
Definition tree_contract : Prop :=
  forall (t staged committed : Tree) (key value : list byte),
    Tree_Stage t (fun snap => Snapshot_Set snap key value) = Ok staged ->
    Tree_Commit staged = Ok committed ->
    Tree_Get committed key = Ok value.

(** The contract of the roster factory: it decodes what a roster
    serializes to. *)
Definition roster_codec_contract : Prop :=
  forall (roster : Authority) (value : list byte),
    Serialize roster = Ok value -> AuthorityOf value = Ok roster.

(** The requests of a list served by [Process] one after the other: the
    outcomes in order and the final state. *)
Fixpoint serve (h : processor) (reqs : list Request)
  : list (outcome (result (option Message))) * processor :=
  match reqs with
  | [] => ([], h)
  | req :: reqs =>
    let '(o, h) := Process h req in
    let '(os, h) := serve h reqs in
    (o :: os, h)
  end.

Definition genesis_request (req : Request) : Prop :=
  match req_Message req with
  | GenesisMessage _ => True
  | _ => False
  end.

(** The barrier is closed only once a genesis is set. *)
Definition barrier_invariant (h : processor) : Prop :=
  started h = true -> genesis h <> None.

End Processor.
End Processor.

(** ** core/ordering/cosipbft/proc.go, the JSON formats of the skipchain

    The second package of the file: the engines that encode and decode the
    blocks, the blueprints and the requests of the skipchain in JSON.  The
    [serde.Context] every function receives and passes on is fixed: its
    [Marshal] and [Unmarshal] on each JSON message and the factories it
    holds are parameters. *)

Module Json.

(** The JSON messages. *)
Record Blueprint : Type := {
  Blueprint_Index : N;
  Blueprint_Previous : list byte;
  Blueprint_Payload : list byte
}.

Record SkipBlock : Type := {
  SkipBlock_Index : N;
  SkipBlock_GenesisID : list byte;
  SkipBlock_Backlink : list byte;
  SkipBlock_Payload : list byte
}.

Record VerifiableBlock : Type := {
  VerifiableBlock_Block : list byte;
  VerifiableBlock_Chain : list byte
}.

Record PropagateGenesis : Type := { Genesis : list byte }.

Record BlockRequest : Type := { From : N; To : N }.

Record BlockResponse : Type := { Block : list byte }.

(** [Request]: the three pointers, [None] when nil. *)
Record Request : Type := {
  Propagate : option PropagateGenesis;
  Request_ : option BlockRequest;
  Response : option BlockResponse
}.

(** The requests [Encode] puts on the wire: one pointer set. *)
Definition one_field (m : Request) : Prop :=
  match Propagate m, Request_ m, Response m with
  | Some _, None, None | None, Some _, None | None, None, Some _ => True
  | _, _, _ => False
  end.

Section Json.

(** [types.SkipBlock], its payload ([blockchain.Payload]), the chain of a
    verifiable block ([consensus.Chain]), the data of a blueprint (a
    [serde.Message]) and [crypto.HashFactory], of other packages. *)
Context {types_SkipBlock Payload Chain Data HashFactory : Type}.

(** What the engines read from a block: [GetIndex()], [GenesisID.Bytes()],
    [BackLink.Bytes()] and [Payload]; and the zero value [types.SkipBlock{}]. *)
Variable GetIndex : types_SkipBlock -> N.
Variable GenesisID : types_SkipBlock -> list byte.
Variable BackLink : types_SkipBlock -> list byte.
Variable Payload_of : types_SkipBlock -> Payload.
Variable zero_SkipBlock : types_SkipBlock.

(** The options given to [types.NewSkipBlock], and the constructor. *)
Inductive SkipBlockOption : Type :=
| WithIndex (index : N)
| WithGenesisID (id : list byte)
| WithBackLink (id : list byte)
| WithHashFactory (f : HashFactory).

Variable NewSkipBlock : Payload -> list SkipBlockOption -> result types_SkipBlock.

(** [types.Blueprint]: [NewBlueprint(index, previous, data)] with its three
    getters. *)
Record types_Blueprint : Type := {
  bp_index : N;
  bp_previous : list byte;
  bp_data : Data
}.

(** The [serde.Message] values the engines distinguish. *)
Inductive Message : Type :=
| SkipBlockMsg (block : types_SkipBlock)
| VerifiableBlockMsg (block : types_SkipBlock) (chain : Chain)
| BlueprintMsg (bp : types_Blueprint)
| PropagateGenesisMsg (genesis : types_SkipBlock)
| BlockRequestMsg (from to : N)
| BlockResponseMsg (block : types_SkipBlock)
| OtherMsg (type_name : string).

(** What [%T] prints. *)
Definition type_of (msg : Message) : string :=
  match msg with
  | SkipBlockMsg _ => "types.SkipBlock"
  | VerifiableBlockMsg _ _ => "types.VerifiableBlock"
  | BlueprintMsg _ => "types.Blueprint"
  | PropagateGenesisMsg _ => "types.PropagateGenesis"
  | BlockRequestMsg _ _ => "types.BlockRequest"
  | BlockResponseMsg _ => "types.BlockResponse"
  | OtherMsg t => t
  end.

(** [Serialize(ctx)] of a payload, of a chain and of the data of a
    blueprint. *)
Variable Payload_Serialize : Payload -> result (list byte).
Variable Chain_Serialize : Chain -> result (list byte).
Variable Data_Serialize : Data -> result (list byte).

(** [ctx.Marshal] and [ctx.Unmarshal] on each JSON message. *)
Variable Marshal_SkipBlock : SkipBlock -> result (list byte).
Variable Unmarshal_SkipBlock : list byte -> result SkipBlock.
Variable Marshal_VerifiableBlock : VerifiableBlock -> result (list byte).
Variable Unmarshal_VerifiableBlock : list byte -> result VerifiableBlock.
Variable Marshal_Blueprint : Blueprint -> result (list byte).
Variable Unmarshal_Blueprint : list byte -> result Blueprint.
Variable Marshal_Request : Request -> result (list byte).
Variable Unmarshal_Request : list byte -> result Request.

(** What the payload factory deserializes to: a [blockchain.Payload], or a
    message of another type (["<nil>"] for nil). *)
Inductive deserialized : Type :=
| IsPayload (payload : Payload)
| NotPayload (type_name : string).

(** [ctx.GetFactory(key)] for the three keys: [None] is nil.  The chain
    factory is a [consensus.ChainFactory] with its [ChainOf], or a factory
    of another type. *)
Variable GetFactory_Payload : option (list byte -> result deserialized).
Variable GetFactory_Chain : (list byte -> result Chain) + string.
Variable GetFactory_Data : option (list byte -> result Data).

(** [serde.FormatEngine], with the context applied. *)
Record FormatEngine : Type := {
  Encode : Message -> result (list byte);
  Decode : list byte -> result Message
}.

(** *** blockFormat *)

Record blockFormat : Type := { hashFactory : option HashFactory }.

Definition blockFormat_Encode (f : blockFormat) (msg : Message)
  : result (list byte) :=
  match msg with
  | SkipBlockMsg block =>
    match Payload_Serialize (Payload_of block) with
    | Err e => Err (Errorf "couldn't serialize payload" e)
    | Ok payload =>
      let m := {| SkipBlock_Index := GetIndex block;
                  SkipBlock_GenesisID := GenesisID block;
                  SkipBlock_Backlink := BackLink block;
                  SkipBlock_Payload := payload |} in
      match Marshal_SkipBlock m with
      | Err e => Err (Errorf "couldn't marshal" e)
      | Ok data => Ok data
      end
    end
  | _ => Err (UnsupportedMessage (type_of msg))
  end.

Definition blockFormat_Decode (f : blockFormat) (data : list byte)
  : result Message :=
  match Unmarshal_SkipBlock data with
  | Err e => Err (Errorf "couldn't deserialize message" e)
  | Ok m =>
    match GetFactory_Payload with
    | None => Err (Failure "payload factory is missing")
    | Some factory =>
      match factory (SkipBlock_Payload m) with
      | Err e => Err (Errorf "couldn't deserialize payload" e)
      | Ok (NotPayload t) =>
        Err (Failure ("invalid payload of type '" ++ t ++ "'"))
      | Ok (IsPayload payload) =>
        let opts := [WithIndex (SkipBlock_Index m);
                     WithGenesisID (SkipBlock_GenesisID m);
                     WithBackLink (SkipBlock_Backlink m)] in
        let opts :=
          match hashFactory f with
          | Some hf => opts ++ [WithHashFactory hf]
          | None => opts
          end in
        match NewSkipBlock payload opts with
        | Err e => Err (Errorf "couldn't create block" e)
        | Ok block => Ok (SkipBlockMsg block)
        end
      end
    end
  end.

(** [blockFormat{}] as the engine the two constructors below install. *)
Definition blockFormat_engine (f : blockFormat) : FormatEngine :=
  {| Encode := blockFormat_Encode f; Decode := blockFormat_Decode f |}.

(** *** verifiableFormat *)

Record verifiableFormat : Type := { verifiable_blockFormat : FormatEngine }.

Definition newVerifiableFormat : verifiableFormat :=
  {| verifiable_blockFormat := blockFormat_engine {| hashFactory := None |} |}.

Definition verifiableFormat_Encode (f : verifiableFormat) (msg : Message)
  : result (list byte) :=
  match msg with
  | VerifiableBlockMsg vb_SkipBlock vb_Chain =>
    match Encode (verifiable_blockFormat f) (SkipBlockMsg vb_SkipBlock) with
    | Err e => Err (Errorf "couldn't serialize block" e)
    | Ok block =>
      match Chain_Serialize vb_Chain with
      | Err e => Err (Errorf "couldn't serialize chain" e)
      | Ok chain =>
        let m := {| VerifiableBlock_Block := block; VerifiableBlock_Chain := chain |} in
        match Marshal_VerifiableBlock m with
        | Err e => Err (Errorf "couldn't marshal" e)
        | Ok data => Ok data
        end
      end
    end
  | _ => Err (UnsupportedMessage (type_of msg))
  end.

Definition decodeChain (data : list byte) : result Chain :=
  match GetFactory_Chain with
  | inr t => Err (Failure ("invalid chain factory of type '" ++ t ++ "'"))
  | inl ChainOf =>
    match ChainOf data with
    | Err e => Err (Errorf "couldn't deserialize chain" e)
    | Ok chain => Ok chain
    end
  end.

(** [Decode] of the verifiable format returns both values of the Go pair:
    the message ([None] for nil) and the error ([None] for nil).  The type
    assertion [block.(types.SkipBlock)] panics on any other message. *)
Definition verifiableFormat_Decode (f : verifiableFormat) (data : list byte)
  : outcome (option Message * option error) :=
  match Unmarshal_VerifiableBlock data with
  | Err e => Return (None, Some (Errorf "couldn't deserialize message" e))
  | Ok m =>
    match decodeChain (VerifiableBlock_Chain m) with
    | Err e => Return (None, Some e)
    | Ok chain =>
      match Decode (verifiable_blockFormat f) (VerifiableBlock_Block m) with
      | Err e =>
        Return (Some (SkipBlockMsg zero_SkipBlock),
                Some (Errorf "couldn't deserialize block" e))
      | Ok (SkipBlockMsg block) => Return (Some (VerifiableBlockMsg block chain), None)
      | Ok _ => Panic
      end
    end
  end.

(** *** blueprintFormat *)

Definition blueprintFormat_Encode (msg : Message) : result (list byte) :=
  match msg with
  | BlueprintMsg bp =>
    match Data_Serialize (bp_data bp) with
    | Err e => Err (Errorf "couldn't serialize payload" e)
    | Ok payload =>
      let m := {| Blueprint_Index := bp_index bp;
                  Blueprint_Previous := bp_previous bp;
                  Blueprint_Payload := payload |} in
      match Marshal_Blueprint m with
      | Err e => Err (Errorf "couldn't marshal" e)
      | Ok data => Ok data
      end
    end
  | _ => Err (UnsupportedMessage (type_of msg))
  end.

Definition blueprintFormat_Decode (data : list byte) : result Message :=
  match Unmarshal_Blueprint data with
  | Err e => Err (Errorf "couldn't deserialize blueprint" e)
  | Ok m =>
    match GetFactory_Data with
    | None => Err (Failure "missing data factory")
    | Some factory =>
      match factory (Blueprint_Payload m) with
      | Err e => Err (Errorf "couldn't deserialize payload" e)
      | Ok payload =>
        Ok (BlueprintMsg {| bp_index := Blueprint_Index m;
                            bp_previous := Blueprint_Previous m;
                            bp_data := payload |})
      end
    end
  end.

(** *** requestFormat *)

Record requestFormat : Type := { request_blockFormat : FormatEngine }.

Definition newRequestFormat : requestFormat :=
  {| request_blockFormat := blockFormat_engine {| hashFactory := None |} |}.

(** The switch of [Encode]: the request to marshal, or the error returned. *)
Definition requestFormat_request (f : requestFormat) (msg : Message)
  : result Request :=
  match msg with
  | PropagateGenesisMsg genesis =>
    match Encode (request_blockFormat f) (SkipBlockMsg genesis) with
    | Err e => Err (Errorf "couldn't serialize genesis" e)
    | Ok block =>
      Ok {| Propagate := Some {| Genesis := block |};
            Request_ := None; Response := None |}
    end
  | BlockRequestMsg from to =>
    Ok {| Propagate := None;
          Request_ := Some {| From := from; To := to |};
          Response := None |}
  | BlockResponseMsg response =>
    match Encode (request_blockFormat f) (SkipBlockMsg response) with
    | Err e => Err (Errorf "couldn't serialize block" e)
    | Ok block =>
      Ok {| Propagate := None; Request_ := None;
            Response := Some {| Block := block |} |}
    end
  | _ => Err (UnsupportedMessage (type_of msg))
  end.

Definition requestFormat_Encode (f : requestFormat) (msg : Message)
  : result (list byte) :=
  match requestFormat_request f msg with
  | Err e => Err e
  | Ok req =>
    match Marshal_Request req with
    | Err e => Err (Errorf "couldn't marshal" e)
    | Ok data => Ok data
    end
  end.

Definition requestFormat_Decode (f : requestFormat) (data : list byte)
  : outcome (result Message) :=
  match Unmarshal_Request data with
  | Err e => Return (Err (Errorf "couldn't deserialize message" e))
  | Ok m =>
    match Propagate m, Request_ m, Response m with
    | Some p, _, _ =>
      match Decode (request_blockFormat f) (Genesis p) with
      | Err e => Return (Err (Errorf "couldn't deserialize genesis" e))
      | Ok (SkipBlockMsg genesis) => Return (Ok (PropagateGenesisMsg genesis))
      | Ok _ => Panic
      end
    | None, Some r, _ => Return (Ok (BlockRequestMsg (From r) (To r)))
    | None, None, Some r =>
      match Decode (request_blockFormat f) (Block r) with
      | Err e => Return (Err (Errorf "couldn't deserialize block" e))
      | Ok (SkipBlockMsg block) => Return (Ok (BlockResponseMsg block))
      | Ok _ => Panic
      end
    | None, None, None => Return (Err (Failure "message is empty"))
    end
  end.

End Json.
End Json.

(** ** A small instance

    Test doubles for the collaborators, on which the embedded code runs:
    blocks and links are their index, the tree is a list of written pairs
    (newest first) and the PBFT state machine records the calls it gets. *)

Module Sample.
Import Processor.

Inductive call : Type :=
| Prepared (index : N)
| Committed (id : Digest)
| Finalized (id : Digest)
| Accepted (from : nat) (leader : N).

Record sample_genesis : Type := {
  g_roster : list byte;
  g_root : Digest
}.

Definition sample_tree : Type := list (list byte * list byte).

Definition state : Type :=
  @processor N sample_genesis sample_tree (list call).

Definition record_call (h : state) (c : call) : state :=
  set_pbftsm h (pbftsm h ++ [c]).

Definition digest_of (block : N) : Digest :=
  copy_Digest (match Byte.of_N block with Some b => [b] | None => [] end).

(** Prepare accepts the block that comes next in the store; commit and
    finalize need a call before them. *)
#[export] Instance pbft : @PBFT nat N N (list byte) sample_genesis sample_tree (list call) := {
  pbft_Prepare h block :=
    if (block =? blocks_Len h)%N
    then (Ok (digest_of block), record_call h (Prepared block))
    else (Err (Failure "unexpected index"), record_call h (Prepared block));
  pbft_Commit h id _ :=
    (match pbftsm h with [] => Some (Failure "unexpected") | _ => None end,
     record_call h (Committed id));
  pbft_Finalize h id _ :=
    (match pbftsm h with [] => Some (Failure "unexpected") | _ => None end,
     record_call h (Finalized id));
  pbft_Accept h view := record_call h (Accepted (From view) (Leader view))
}.

Fixpoint tree_lookup (t : sample_tree) (key : list byte) : list byte :=
  match t with
  | [] => []
  | (k, v) :: t => if decide (k = key) then v else tree_lookup t key
  end.

#[export] Instance hashtree : @Hashtree sample_tree sample_tree := {
  Tree_Get t key := Ok (tree_lookup t key);
  Tree_GetRoot t := concat (map snd t);
  Tree_Stage t fn := fn t;
  Tree_Commit t := Ok t;
  Snapshot_Set snap key value := Ok ((key, value) :: snap)
}.

Definition not_empty (what : string) (b : list byte) : result (list byte) :=
  match b with
  | [] => Err (Failure what)
  | _ => Ok b
  end.

#[export] Instance types : @Types N N (list byte) (list byte) sample_genesis := {
  GetIndex block := block;
  GetBlock link := link;
  MarshalBinary signature := not_empty "empty signature" signature;
  Serialize roster := not_empty "empty roster" roster;
  AuthorityOf data := not_empty "empty roster" data;
  NewGenesis roster root := Ok {| g_roster := roster; g_root := root |};
  GetRoster := g_roster;
  GetRoot := g_root
}.

(** A processor as [newProcessor] leaves it, on an empty tree. *)
Definition fresh : state :=
  {| pbftsm := []; sync := 0; tree := []; watcher := []; genesis := None;
     blocks := []; started := false |}.

Definition roster1 : list byte := [x01; x02; x03].

(** The root of the tree that holds [roster1] under [keyRoster]. *)
Definition root1 : Digest := copy_Digest roster1.

Definition genesis1 : sample_genesis := {| g_roster := roster1; g_root := root1 |}.

(** The processor once [genesis1] is stored. *)
Definition bootstrapped : state :=
  {| pbftsm := []; sync := 0; tree := [(keyRoster, roster1)];
     watcher := [{| Index := 0 |}]; genesis := Some genesis1;
     blocks := []; started := true |}.

(** A replica that holds three links and has heard of index 5. *)
Definition lagging : state :=
  {| pbftsm := []; sync := 5; tree := [(keyRoster, roster1)];
     watcher := [{| Index := 0 |}]; genesis := Some genesis1;
     blocks := [0; 1; 2]%N; started := true |}.

Definition message : Type := @Message N (list byte) sample_genesis.

Definition request (msg : message) : @Request nat N (list byte) sample_genesis :=
  {| req_Address := 7%nat; req_Message := msg |}.

(** A message of the synchronization, unknown to the processor. *)
Definition block_request : message := OtherMessage "types.BlockRequest".

(** The block of index 5, a view for leader 2, and a commit. *)
Definition block5 : message := BlockMessage 5%N.
Definition view2 : message := ViewMessage [] 2%N.
Definition commit1 : message := CommitMessage [x01] [x0a; x0b].

(** A roster of two participants, addresses and keys being numbers. *)
Definition two : @Roster.roster nat nat :=
  {| Roster.addrs := [Some 10; Some 20]%nat; Roster.pubkeys := [Some 1; Some 2]%nat |}.

Definition two_authority : @Roster.CollectiveAuthority nat nat :=
  {| Roster.ca_Len := 2; Roster.ca_addresses := [Some 10; Some 20]%nat;
     Roster.ca_publicKeys := [Some 1; Some 2]%nat |}.

Definition FromText (text : list byte) : option nat := Some (length text).

Definition FromProto (pb : nat) : result (option nat) :=
  if decide (pb = 0)%nat then Err (Failure "no key") else Ok (Some pb).

(** The text of an address is as long as the address is big; a key is
    packed as itself, the key 0 and the nil key being refused. *)
Definition MarshalText (addr : nat) : result (list byte) :=
  Ok (replicate addr x01).

Definition PackAny (pubkey : option nat) : result nat :=
  match pubkey with
  | Some (S n) => Ok (S n)
  | _ => Err (Failure "no key")
  end.

(** Another genesis, whose declared root is not the root of the tree that
    would hold its roster. *)
Definition genesis2 : sample_genesis := {| g_roster := [x09]; g_root := root1 |}.

(** Two rosters that break the invariant: a key is missing, an address
    is nil. *)
Definition short_of_keys : @Roster.roster nat nat :=
  {| Roster.addrs := [Some 10; Some 20]%nat; Roster.pubkeys := [Some 1%nat] |}.

Definition with_nil_address : @Roster.roster nat nat :=
  {| Roster.addrs := [Some 10%nat; None]; Roster.pubkeys := [Some 1; Some 2]%nat |}.

(** A collective authority whose address iterator yields nil first, and the
    roster with as many keys as addresses that [New] makes of it. *)
Definition nil_then_20_authority : @Roster.CollectiveAuthority nat nat :=
  {| Roster.ca_Len := 2; Roster.ca_addresses := [None; Some 20%nat];
     Roster.ca_publicKeys := [Some 1; Some 2]%nat |}.

Definition nil_then_20 : @Roster.roster nat nat :=
  {| Roster.addrs := [None; Some 20%nat]; Roster.pubkeys := [Some 1; Some 2]%nat |}.

End Sample.

(** ** A small instance of the JSON formats

    A block holds an index, two identifiers of one byte and a payload of
    bytes; a chain is one byte; the wire format puts the short fields first
    and refuses what does not fit. *)

Module JsonSample.
Import Json.

Record block : Type := {
  b_index : N;
  b_genesis : byte;
  b_back : byte;
  b_payload : list byte
}.

Definition message : Type := @Message block byte (list byte).

Definition option_ : Type := @SkipBlockOption unit.

Fixpoint apply_options (opts : list option_) (b : block) : result block :=
  match opts with
  | [] => Ok b
  | WithIndex i :: opts =>
    apply_options opts {| b_index := i; b_genesis := b_genesis b;
                          b_back := b_back b; b_payload := b_payload b |}
  | WithGenesisID [g] :: opts =>
    apply_options opts {| b_index := b_index b; b_genesis := g;
                          b_back := b_back b; b_payload := b_payload b |}
  | WithBackLink [k] :: opts =>
    apply_options opts {| b_index := b_index b; b_genesis := b_genesis b;
                          b_back := k; b_payload := b_payload b |}
  | WithHashFactory _ :: opts => apply_options opts b
  | _ => Err (Failure "identifier of a wrong size")
  end.

Definition NewSkipBlock (payload : list byte) (opts : list option_) : result block :=
  apply_options opts
    {| b_index := 0; b_genesis := x00; b_back := x00; b_payload := payload |}.

Definition zero : block :=
  {| b_index := 0; b_genesis := x00; b_back := x00; b_payload := [] |}.

Definition Serialize (b : list byte) : result (list byte) := Ok b.

Definition Chain_Serialize (c : byte) : result (list byte) := Ok [c].

Definition ChainOf (data : list byte) : result byte :=
  match data with
  | [c] => Ok c
  | _ => Err (Failure "not a chain")
  end.

Definition payload_factory (data : list byte)
  : result (@deserialized (list byte)) := Ok (IsPayload data).

Definition data_factory (data : list byte) : result (list byte) := Ok data.

Definition Marshal_SkipBlock (m : SkipBlock) : result (list byte) :=
  match Byte.of_N (SkipBlock_Index m), SkipBlock_GenesisID m, SkipBlock_Backlink m with
  | Some i, [g], [k] => Ok (i :: g :: k :: SkipBlock_Payload m)
  | _, _, _ => Err (Failure "json")
  end.

Definition Unmarshal_SkipBlock (data : list byte) : result SkipBlock :=
  match data with
  | i :: g :: k :: payload =>
    Ok {| SkipBlock_Index := Byte.to_N i; SkipBlock_GenesisID := [g];
          SkipBlock_Backlink := [k]; SkipBlock_Payload := payload |}
  | _ => Err (Failure "json")
  end.

Definition Marshal_VerifiableBlock (m : VerifiableBlock) : result (list byte) :=
  match VerifiableBlock_Chain m with
  | [c] => Ok (c :: VerifiableBlock_Block m)
  | _ => Err (Failure "json")
  end.

Definition Unmarshal_VerifiableBlock (data : list byte) : result VerifiableBlock :=
  match data with
  | c :: blk => Ok {| VerifiableBlock_Block := blk; VerifiableBlock_Chain := [c] |}
  | _ => Err (Failure "json")
  end.

Definition Marshal_Blueprint (m : Blueprint) : result (list byte) :=
  match Byte.of_N (Blueprint_Index m), Blueprint_Previous m with
  | Some i, [p] => Ok (i :: p :: Blueprint_Payload m)
  | _, _ => Err (Failure "json")
  end.

Definition Unmarshal_Blueprint (data : list byte) : result Blueprint :=
  match data with
  | i :: p :: payload =>
    Ok {| Blueprint_Index := Byte.to_N i; Blueprint_Previous := [p];
          Blueprint_Payload := payload |}
  | _ => Err (Failure "json")
  end.

(** One field per request on the wire, announced by a first byte. *)
Definition Marshal_Request (m : Request) : result (list byte) :=
  match Propagate m, Request_ m, Response m with
  | Some p, None, None => Ok (x00 :: Genesis p)
  | None, Some r, None =>
    match Byte.of_N (From r), Byte.of_N (To r) with
    | Some f, Some t => Ok [x01; f; t]
    | _, _ => Err (Failure "json")
    end
  | None, None, Some r => Ok (x02 :: Block r)
  | _, _, _ => Err (Failure "json")
  end.

Definition Unmarshal_Request (data : list byte) : result Request :=
  match data with
  | x00 :: genesis =>
    Ok {| Propagate := Some {| Genesis := genesis |}; Request_ := None;
          Response := None |}
  | [x01; f; t] =>
    Ok {| Propagate := None;
          Request_ := Some {| From := Byte.to_N f; To := Byte.to_N t |};
          Response := None |}
  | x02 :: blk =>
    Ok {| Propagate := None; Request_ := None;
          Response := Some {| Block := blk |} |}
  | _ => Err (Failure "json")
  end.

Definition GenesisID (b : block) : list byte := [b_genesis b].
Definition BackLink (b : block) : list byte := [b_back b].

(** The engines on this instance. *)
Definition block_Encode (f : @blockFormat unit) (msg : message) : result (list byte) :=
  blockFormat_Encode b_index GenesisID BackLink b_payload Serialize
    Marshal_SkipBlock f msg.

Definition block_Decode (f : @blockFormat unit) (data : list byte) : result message :=
  blockFormat_Decode NewSkipBlock Unmarshal_SkipBlock (Some payload_factory) f data.

Definition request_format : @requestFormat block byte (list byte) :=
  newRequestFormat b_index GenesisID BackLink b_payload NewSkipBlock Serialize
    Marshal_SkipBlock Unmarshal_SkipBlock (Some payload_factory).

Definition verifiable_format : @verifiableFormat block byte (list byte) :=
  newVerifiableFormat b_index GenesisID BackLink b_payload NewSkipBlock Serialize
    Marshal_SkipBlock Unmarshal_SkipBlock (Some payload_factory).

Definition block7 : block :=
  {| b_index := 7; b_genesis := x0a; b_back := x0b; b_payload := [x01; x02] |}.

Definition blueprint3 : @types_Blueprint (list byte) :=
  {| bp_index := 3; bp_previous := [x0c]; bp_data := [x05] |}.

End JsonSample.

(** ** ledger/transactions/basic/json/mod.go

    The engine that encodes and decodes the transactions in JSON.  As for
    the skipchain, the [serde.Context] is fixed and enters through its
    [Marshal], its [Unmarshal] and the factories it holds. *)

Module TxJson.

(** The JSON messages. *)
Record Task : Type := {
  Task_Type : string;
  Task_Value : list byte
}.

Record Transaction : Type := {
  Transaction_Nonce : N;
  Transaction_Identity : list byte;
  Transaction_Signature : list byte;
  Transaction_Task : Task
}.

Section TxJson.

(** [basic.ClientTransaction] and [basic.ServerTransaction], the identity
    ([crypto.PublicKey]), the signature, the tasks of both sides and
    [crypto.HashFactory]. *)
Context {ClientTransaction ServerTransaction : Type}.
Context {Identity Signature ClientTask ServerTask HashFactory : Type}.

(** The getters of a client transaction, the client transaction a server
    transaction embeds, and [basic.KeyOf]. *)
Variable GetNonce : ClientTransaction -> N.
Variable GetIdentity : ClientTransaction -> Identity.
Variable GetSignature : ClientTransaction -> Signature.
Variable GetTask : ClientTransaction -> ClientTask.
Variable client_of : ServerTransaction -> ClientTransaction.
Variable KeyOf : ClientTask -> string.

Variable Identity_Serialize : Identity -> result (list byte).
Variable Signature_Serialize : Signature -> result (list byte).
Variable Task_Serialize : ClientTask -> result (list byte).

Variable Marshal : Transaction -> result (list byte).
Variable Unmarshal : list byte -> result Transaction.

(** The options given to [basic.NewServerTransaction], and the constructor. *)
Inductive ServerTransactionOption : Type :=
| WithNonce (nonce : N)
| WithIdentity (identity : Identity) (signature : Signature)
| WithTask (task : ServerTask)
| WithHashFactory (f : HashFactory).

Variable NewServerTransaction :
  list ServerTransactionOption -> result ServerTransaction.

(** What a task factory deserializes to: a [basic.ServerTask], or a message
    of another type. *)
Inductive deserialized : Type :=
| IsServerTask (task : ServerTask)
| NotServerTask (type_name : string).

(** [ctx.GetFactory(key)] for the three keys: a factory of the expected
    interface with its method, or the name of the type it has.  The
    transaction factory maps a key to a task factory, [None] when nil. *)
Variable GetFactory_Identity : (list byte -> result Identity) + string.
Variable GetFactory_Signature : (list byte -> result Signature) + string.
Variable GetFactory_Task :
  (string -> option (list byte -> result deserialized)) + string.

(** The [serde.Message] values [Encode] distinguishes. *)
Inductive Message : Type :=
| ClientTransactionMsg (tx : ClientTransaction)
| ServerTransactionMsg (tx : ServerTransaction)
| OtherMsg (type_name : string).

(** The client transaction a message holds. *)
Definition client_part (msg : Message) : option ClientTransaction :=
  match msg with
  | ClientTransactionMsg tx => Some tx
  | ServerTransactionMsg tx => Some (client_of tx)
  | OtherMsg _ => None
  end.

Record txFormat : Type := { hashFactory : option HashFactory }.

Definition invalid_factory (t : string) : error :=
  Failure ("invalid factory of type '" ++ t ++ "'").

Definition txFormat_Encode (f : txFormat) (msg : Message) : result (list byte) :=
  match
    match msg with
    | ClientTransactionMsg tx => Ok tx
    | ServerTransactionMsg tx => Ok (client_of tx)
    | OtherMsg t => Err (Failure ("unsupported tx type '" ++ t ++ "'"))
    end
  with
  | Err e => Err e
  | Ok tx =>
    match Identity_Serialize (GetIdentity tx) with
    | Err e => Err (Errorf "couldn't serialize identity" e)
    | Ok ident =>
      match Signature_Serialize (GetSignature tx) with
      | Err e => Err (Errorf "couldn't serialize signature" e)
      | Ok signature =>
        match Task_Serialize (GetTask tx) with
        | Err e => Err (Errorf "couldn't serialize task" e)
        | Ok task =>
          let m := {| Transaction_Nonce := GetNonce tx;
                      Transaction_Identity := ident;
                      Transaction_Signature := signature;
                      Transaction_Task :=
                        {| Task_Type := KeyOf (GetTask tx); Task_Value := task |} |} in
          match Marshal m with
          | Err e => Err (Errorf "couldn't marshal" e)
          | Ok data => Ok data
          end
        end
      end
    end
  end.

Definition decodeIdentity (data : list byte) : result Identity :=
  match GetFactory_Identity with
  | inr t => Err (invalid_factory t)
  | inl PublicKeyOf => PublicKeyOf data
  end.

Definition decodeSignature (data : list byte) : result Signature :=
  match GetFactory_Signature with
  | inr t => Err (invalid_factory t)
  | inl SignatureOf => SignatureOf data
  end.

(** [decodeTask]: the assertion [task.(basic.ServerTask)] panics on a
    message of another type. *)
Definition decodeTask (key : string) (data : list byte)
  : outcome (result ServerTask) :=
  match GetFactory_Task with
  | inr t => Return (Err (invalid_factory t))
  | inl Get =>
    match Get key with
    | None => Return (Err (Failure ("task factory for '" ++ key ++ "' not found")))
    | Some taskFac =>
      match taskFac data with
      | Err e => Return (Err e)
      | Ok (IsServerTask task) => Return (Ok task)
      | Ok (NotServerTask _) => Panic
      end
    end
  end.

Definition txFormat_Decode (f : txFormat) (data : list byte)
  : outcome (result Message) :=
  match Unmarshal data with
  | Err e => Return (Err (Errorf "couldn't deserialize transaction" e))
  | Ok m =>
    match decodeIdentity (Transaction_Identity m) with
    | Err e => Return (Err (Errorf "couldn't deserialize identity" e))
    | Ok ident =>
      match decodeSignature (Transaction_Signature m) with
      | Err e => Return (Err (Errorf "couldn't deserialize signature" e))
      | Ok signature =>
        match decodeTask (Task_Type (Transaction_Task m))
                (Task_Value (Transaction_Task m)) with
        | Panic => Panic
        | Blocked => Blocked
        | Return (Err e) => Return (Err (Errorf "couldn't deserialize task" e))
        | Return (Ok task) =>
          let opts := [WithNonce (Transaction_Nonce m);
                       WithIdentity ident signature;
                       WithTask task] in
          let opts :=
            match hashFactory f with
            | Some hf => opts ++ [WithHashFactory hf]
            | None => opts
            end in
          match NewServerTransaction opts with
          | Err e => Return (Err (Errorf "couldn't create tx" e))
          | Ok tx => Return (Ok (ServerTransactionMsg tx))
          end
        end
      end
    end
  end.

End TxJson.
End TxJson.

(** ** A small instance of the transactions

    A client transaction is a nonce with three lists of bytes; the server
    transaction is the client one; the only task known is ["put"]. *)

Module TxSample.
Import TxJson.

Record tx : Type := {
  tx_nonce : N;
  tx_identity : list byte;
  tx_signature : list byte;
  tx_task : list byte
}.

Definition option_ : Type :=
  @ServerTransactionOption (list byte) (list byte) (list byte) unit.

Fixpoint apply_options (opts : list option_) (t : tx) : tx :=
  match opts with
  | [] => t
  | WithNonce n :: opts =>
    apply_options opts {| tx_nonce := n; tx_identity := tx_identity t;
                          tx_signature := tx_signature t; tx_task := tx_task t |}
  | WithIdentity i s :: opts =>
    apply_options opts {| tx_nonce := tx_nonce t; tx_identity := i;
                          tx_signature := s; tx_task := tx_task t |}
  | WithTask k :: opts =>
    apply_options opts {| tx_nonce := tx_nonce t; tx_identity := tx_identity t;
                          tx_signature := tx_signature t; tx_task := k |}
  | WithHashFactory _ :: opts => apply_options opts t
  end.

Definition NewServerTransaction (opts : list option_) : result tx :=
  Ok (apply_options opts
        {| tx_nonce := 0; tx_identity := []; tx_signature := []; tx_task := [] |}).

Definition Serialize (b : list byte) : result (list byte) := Ok b.

Definition KeyOf (task : list byte) : string := "put".

(** On the wire: the nonce, the identity and the signature on one byte
    each, then the task; the type of the task is always ["put"]. *)
Definition Marshal (m : Transaction) : result (list byte) :=
  match Byte.of_N (Transaction_Nonce m), Transaction_Identity m,
        Transaction_Signature m with
  | Some n, [i], [s] =>
    if String.eqb (Task_Type (Transaction_Task m)) "put"
    then Ok (n :: i :: s :: Task_Value (Transaction_Task m))
    else Err (Failure "json")
  | _, _, _ => Err (Failure "json")
  end.

Definition Unmarshal (data : list byte) : result Transaction :=
  match data with
  | n :: i :: s :: task =>
    Ok {| Transaction_Nonce := Byte.to_N n; Transaction_Identity := [i];
          Transaction_Signature := [s];
          Transaction_Task := {| Task_Type := "put"; Task_Value := task |} |}
  | _ => Err (Failure "json")
  end.

Definition bytes_factory (data : list byte) : result (list byte) := Ok data.

Definition task_factories (key : string)
  : option (list byte -> result (@deserialized (list byte))) :=
  if String.eqb key "put" then Some (fun data => Ok (IsServerTask data)) else None.

Definition message : Type := @Message tx tx.

Definition Encode (msg : message) : result (list byte) :=
  txFormat_Encode tx_nonce tx_identity tx_signature tx_task (fun t => t) KeyOf
    Serialize Serialize Serialize Marshal {| hashFactory := @None unit |} msg.

Definition Decode (data : list byte) : outcome (result message) :=
  txFormat_Decode Unmarshal NewServerTransaction (inl bytes_factory)
    (inl bytes_factory) (inl task_factories)
    {| hashFactory := @None unit |} data.

Definition tx9 : tx :=
  {| tx_nonce := 9; tx_identity := [x0a]; tx_signature := [x0b];
     tx_task := [x01; x02] |}.

End TxSample.

(** * Properties *)

(** ** The roster *)

Section RosterFacts.
Import Roster.

Context {Address PublicKey ChangeSet Any : Type}.
Variable Equal : Address -> Address -> bool.
Variable FromText : list byte -> option Address.
Variable DecodeKey : Any -> result (option PublicKey).

Local Abbreviation roster := (@roster Address PublicKey).
Local Abbreviation GetPublicKey := (GetPublicKey Equal).
Local Abbreviation FromProto := (FromProto FromText DecodeKey).

Implicit Types (r : roster) (target : Address).

Lemma index_lookup {A} (s : list A) (k : Z) :
  0 <= k -> index s k = s !! Z.to_nat k.
Proof.
  intros Hk. unfold index.
  destruct (Z.ltb_spec k 0) as [Hneg|_]; [lia|reflexivity].
Qed.

Lemma index_is_Some {A} (s : list A) (k : Z) :
  0 <= k < Z.of_nat (length s) -> is_Some (index s k).
Proof.
  intros Hk. rewrite index_lookup by lia.
  apply lookup_lt_is_Some. lia.
Qed.

(** *** GetPublicKey *)

Lemma GetPublicKey_loop_cases r target (rest : list (option Address)) :
  forall i : nat,
    Forall is_Some rest ->
    (i + length rest <= length (pubkeys r))%nat ->
    (GetPublicKey_loop Equal i rest r target = Return (None, -1)
     /\ forall j addr, rest !! j = Some (Some addr) -> Equal addr target = false)
    \/ (exists (n : nat) addr p,
           rest !! n = Some (Some addr) /\ Equal addr target = true
           /\ (forall j a, (j < n)%nat -> rest !! j = Some (Some a) ->
                           Equal a target = false)
           /\ pubkeys r !! (i + n)%nat = Some p
           /\ GetPublicKey_loop Equal i rest r target
              = Return (p, Z.of_nat (i + n))).
Proof.
  induction rest as [|a rest IH]; intros i Hnil Hlen.
  - left. split; [reflexivity|]. intros j addr Hj. discriminate.
  - apply Forall_cons in Hnil as [[addr ->] Hnil]. simpl in Hlen.
    cbn [GetPublicKey_loop].
    destruct (Equal addr target) eqn:Heq.
    + right. destruct (lookup_lt_is_Some_2 (pubkeys r) i) as [p Hp]; [lia|].
      exists 0%nat, addr, p. rewrite Nat.add_0_r, Hp.
      repeat split; try done. intros j a Hj. lia.
    + destruct (IH (S i) Hnil) as [[Hret Hnone]|(n & addr' & p & Hn & Hyes & Hfirst & Hp & Hret)];
        [lia| |].
      * left. split; [exact Hret|].
        intros [|j] addr' Hj; simpl in Hj; [congruence|eauto].
      * right. exists (S n), addr', p.
        replace (i + S n)%nat with (S i + n)%nat by lia.
        repeat split; try done.
        intros [|j] a Hj Ha; simpl in Ha; [congruence|].
        apply (Hfirst j); [lia|done].
Qed.

(** *** Take *)

Lemma Take_loop_spec r (indices : list Z) :
  forall (i : nat) (new r' : roster),
    Take_loop r i indices new = Return r' ->
    length (addrs r') = length (addrs new)
    /\ length (pubkeys r') = length (pubkeys new)
    /\ (forall j : nat, (j < i)%nat ->
          addrs r' !! j = addrs new !! j /\ pubkeys r' !! j = pubkeys new !! j)
    /\ (forall (j : nat) k, indices !! j = Some k ->
          (i + j < length (addrs new))%nat ->
          (i + j < length (pubkeys new))%nat ->
          addrs r' !! (i + j)%nat = index (addrs r) k
          /\ pubkeys r' !! (i + j)%nat = index (pubkeys r) k).
Proof.
  induction indices as [|k rest IH]; intros i new r' Hrun; simpl in Hrun.
  - inversion Hrun; subst r'. repeat split; try done.
  - destruct (index (addrs r) k) as [a|] eqn:Ha; [|discriminate].
    destruct (index (pubkeys r) k) as [p|] eqn:Hp; [|discriminate].
    apply IH in Hrun as (Hla & Hlp & Hbefore & Hafter).
    simpl in Hla, Hlp, Hbefore, Hafter.
    rewrite length_insert in Hla. rewrite length_insert in Hlp.
    setoid_rewrite length_insert in Hafter.
    split; [exact Hla|]. split; [exact Hlp|]. split.
    + intros j Hj. destruct (Hbefore j) as [H1 H2]; [lia|].
      rewrite H1, H2, !list_lookup_insert_ne by lia. done.
    + intros [|j] k' Hk Hja Hjp; simpl in Hk.
      * inversion Hk; subst k'. rewrite Nat.add_0_r in *.
        destruct (Hbefore i) as [H1 H2]; [lia|].
        rewrite H1, H2, !list_lookup_insert_eq by lia. rewrite Ha, Hp. done.
      * replace (i + S j)%nat with (S i + j)%nat by lia.
        apply Hafter; [done|lia|lia].
Qed.

Lemma Take_loop_returns r (indices : list Z) :
  paired r ->
  Forall (fun k => 0 <= k < Z.of_nat (Len r)) indices ->
  forall (i : nat) (new : roster), exists r', Take_loop r i indices new = Return r'.
Proof.
  intros Hr. induction 1 as [|k rest Hk _ IH]; intros i new; simpl.
  - eauto.
  - destruct (index_is_Some (addrs r) k) as [a ->]; [exact Hk|].
    destruct (index_is_Some (pubkeys r) k) as [p ->]; [rewrite <- Hr; exact Hk|].
    apply IH.
Qed.

(** *** New *)

Lemma New_loop_spec (addrIter : list (option Address)) :
  forall (pubkeyIter : list (option PublicKey)) (i : nat) (new r' : roster),
    New_loop i addrIter pubkeyIter new = Return r' ->
    paired new ->
    length (addrs r') = length (addrs new)
    /\ length (pubkeys r') = length (pubkeys new)
    /\ (forall j : nat, (j < i)%nat ->
          addrs r' !! j = addrs new !! j /\ pubkeys r' !! j = pubkeys new !! j)
    /\ (forall (j : nat) a p,
          addrIter !! j = Some a -> pubkeyIter !! j = Some p ->
          addrs r' !! (i + j)%nat = Some a /\ pubkeys r' !! (i + j)%nat = Some p).
Proof.
  induction addrIter as [|a addrIter IH]; intros [|p pubkeyIter] i new r' Hrun Hnew;
    simpl in Hrun; try (inversion Hrun; subst r'; repeat split; done).
  destruct (decide (i < length (addrs new))%nat) as [Hi|]; [|discriminate].
  apply IH in Hrun as (Hla & Hlp & Hbefore & Hafter);
    [|unfold paired; simpl; rewrite !length_insert; exact Hnew].
  simpl in Hla, Hlp, Hbefore.
  rewrite length_insert in Hla. rewrite length_insert in Hlp.
  split; [exact Hla|]. split; [exact Hlp|]. split.
  - intros j Hj. destruct (Hbefore j) as [H1 H2]; [lia|].
    rewrite H1, H2, !list_lookup_insert_ne by lia. done.
  - intros [|j] a' p' Ha Hp; simpl in Ha, Hp.
    + inversion Ha; inversion Hp; subst a' p'. rewrite Nat.add_0_r.
      destruct (Hbefore i) as [H1 H2]; [lia|].
      rewrite H1, H2, !list_lookup_insert_eq; [done|rewrite <- Hnew; lia|lia].
    + replace (i + S j)%nat with (S i + j)%nat by lia. eauto.
Qed.

Lemma New_loop_returns (addrIter : list (option Address)) :
  forall (pubkeyIter : list (option PublicKey)) (i : nat) (new : roster),
    (i + length addrIter `min` length pubkeyIter <= length (addrs new))%nat ->
    exists r', New_loop i addrIter pubkeyIter new = Return r'.
Proof.
  induction addrIter as [|a addrIter IH]; intros [|p pubkeyIter] i new Hlen;
    simpl; eauto.
  simpl in Hlen.
  destruct (decide (i < length (addrs new))%nat) as [Hi|Hi]; [|lia].
  apply IH. simpl. rewrite length_insert. lia.
Qed.

(** *** FromProto *)

Lemma FromProto_loop_spec (PublicKeys : list Any) (rest : list (list byte)) :
  forall (i : nat) (new r' : roster),
    FromProto_loop FromText DecodeKey i rest PublicKeys new = Return (Ok r') ->
    length (addrs r') = length (addrs new)
    /\ length (pubkeys r') = length (pubkeys new)
    /\ (forall j : nat, (j < i)%nat ->
          addrs r' !! j = addrs new !! j /\ pubkeys r' !! j = pubkeys new !! j)
    /\ (forall (j : nat) addrpb, rest !! j = Some addrpb ->
          (i + j < length (addrs new))%nat ->
          (i + j < length (pubkeys new))%nat ->
          addrs r' !! (i + j)%nat = Some (FromText addrpb)
          /\ exists pk key, PublicKeys !! (i + j)%nat = Some pk
               /\ DecodeKey pk = Ok key
               /\ pubkeys r' !! (i + j)%nat = Some key).
Proof.
  induction rest as [|addrpb rest IH]; intros i new r' Hrun; simpl in Hrun.
  - inversion Hrun; subst r'. repeat split; done.
  - destruct (PublicKeys !! i) as [pk|] eqn:Hpk; [|discriminate].
    destruct (DecodeKey pk) as [key|e] eqn:Hkey; [|discriminate].
    apply IH in Hrun as (Hla & Hlp & Hbefore & Hafter).
    simpl in Hla, Hlp, Hbefore, Hafter.
    rewrite length_insert in Hla. rewrite length_insert in Hlp.
    setoid_rewrite length_insert in Hafter.
    split; [exact Hla|]. split; [exact Hlp|]. split.
    + intros j Hj. destruct (Hbefore j) as [H1 H2]; [lia|].
      rewrite H1, H2, !list_lookup_insert_ne by lia. done.
    + intros [|j] addrpb' Hj Hja Hjp; simpl in Hj.
      * inversion Hj; subst addrpb'. rewrite Nat.add_0_r in *.
        destruct (Hbefore i) as [H1 H2]; [lia|].
        rewrite H1, H2, !list_lookup_insert_eq by lia.
        split; [reflexivity|]. exists pk, key. done.
      * replace (i + S j)%nat with (S i + j)%nat by lia.
        apply Hafter; [done|lia|lia].
Qed.

Lemma FromProto_loop_returns (PublicKeys : list Any) (rest : list (list byte)) :
  forall (i : nat) (new : roster),
    (forall j : nat, (j < length rest)%nat ->
       exists pk key, PublicKeys !! (i + j)%nat = Some pk /\ DecodeKey pk = Ok key) ->
    exists r', FromProto_loop FromText DecodeKey i rest PublicKeys new = Return (Ok r').
Proof.
  induction rest as [|addrpb rest IH]; intros i new Hkeys; simpl; [eauto|].
  destruct (Hkeys 0%nat) as (pk & key & Hpk & Hkey); [simpl; lia|].
  rewrite Nat.add_0_r in Hpk. rewrite Hpk, Hkey.
  apply IH. intros j Hj.
  replace (S i + j)%nat with (i + S j)%nat by lia. apply Hkeys. simpl. lia.
Qed.

(** *** The claims on the roster *)

(** C7 (what the code does): [Apply] ignores the change set.  Whatever the
    change set says, the roster returned is the one [Apply] is called on,
    so two different change sets give the same successor. *)
Theorem Apply_returns_its_receiver r (c c' : ChangeSet) :
  Apply r c = r /\ Apply r c = Apply r c'.
Proof. split; reflexivity. Qed.

(** The entries that are skipped: addresses that are not nil and not equal
    to the target. *)
Lemma GetPublicKey_loop_skip r target (pre : list (option Address)) :
  forall (rest : list (option Address)) (i : nat),
    Forall (fun a => exists addr, a = Some addr /\ Equal addr target = false) pre ->
    GetPublicKey_loop Equal i (pre ++ rest) r target
    = GetPublicKey_loop Equal (i + length pre)%nat rest r target.
Proof.
  induction pre as [|a pre IH]; intros rest i Hpre; simpl.
  - rewrite Nat.add_0_r. reflexivity.
  - apply Forall_cons in Hpre as [(addr & -> & Hne) Hpre].
    rewrite Hne, IH by exact Hpre.
    replace (i + S (length pre))%nat with (S i + length pre)%nat by lia.
    reflexivity.
Qed.

(** The list of addresses cut at entry [n], the entries before it being
    skipped. *)
Lemma addrs_cut_at (l : list (option Address)) target (n : nat) x :
  l !! n = Some x ->
  (forall (j : nat) a, (j < n)%nat -> l !! j = Some a ->
     exists addr', a = Some addr' /\ Equal addr' target = false) ->
  l = take n l ++ x :: drop (S n) l
  /\ Forall (fun a => exists addr, a = Some addr /\ Equal addr target = false)
       (take n l)
  /\ length (take n l) = n.
Proof.
  intros Hn Hbefore. split; [symmetry; apply take_drop_middle; exact Hn|]. split.
  - apply Forall_lookup. intros j a Hj.
    apply lookup_take_Some in Hj as [Hj Hlt]. apply (Hbefore j a Hlt Hj).
  - apply length_take_le. apply lookup_lt_Some in Hn. lia.
Qed.

(** C9 (amended): [GetPublicKey] scans the addresses in order and stops at
    the first entry that is nil or equal to the target.  If that entry is an
    address equal to the target, it returns the key at that index and the
    index, and panics if the list of keys has no such index; if that entry
    is nil, it panics; if there is no such entry, it returns nil and -1.  In
    particular, on a roster with as many keys as addresses, none of them
    nil: if some entry has an address equal to the target then it returns
    the public key and the index of the first such entry, and if no entry
    has, it returns nil and -1. *)
Theorem GetPublicKey_first_match r target :
  (forall (n : nat) addr,
     addrs r !! n = Some (Some addr) -> Equal addr target = true ->
     (forall (j : nat) a, (j < n)%nat -> addrs r !! j = Some a ->
        exists addr', a = Some addr' /\ Equal addr' target = false) ->
     GetPublicKey r target
     = match pubkeys r !! n with
       | Some p => Return (p, Z.of_nat n)
       | None => Panic
       end)
  /\ (forall n : nat,
        addrs r !! n = Some None ->
        (forall (j : nat) a, (j < n)%nat -> addrs r !! j = Some a ->
           exists addr', a = Some addr' /\ Equal addr' target = false) ->
        GetPublicKey r target = Panic)
  /\ (Forall (fun a => exists addr, a = Some addr /\ Equal addr target = false)
        (addrs r) ->
      GetPublicKey r target = Return (None, -1))
  /\ (paired r ->
      Forall is_Some (addrs r) ->
      ((exists (m : nat) addr,
           addrs r !! m = Some (Some addr) /\ Equal addr target = true) ->
       exists (n : nat) addr p,
         addrs r !! n = Some (Some addr) /\ Equal addr target = true
         /\ (forall j a, (j < n)%nat -> addrs r !! j = Some (Some a) ->
                         Equal a target = false)
         /\ pubkeys r !! n = Some p
         /\ GetPublicKey r target = Return (p, Z.of_nat n))
      /\ ((forall (m : nat) addr,
             addrs r !! m = Some (Some addr) -> Equal addr target = false) ->
          GetPublicKey r target = Return (None, -1))).
Proof.
  split; [|split; [|split]].
  - intros n addr Hn Heq Hbefore.
    destruct (addrs_cut_at (addrs r) target n (Some addr) Hn Hbefore)
      as (Hcut & Hpre & Hlen).
    unfold Roster.GetPublicKey.
    pose proof (GetPublicKey_loop_skip r target (take n (addrs r))
                  (Some addr :: drop (S n) (addrs r)) 0 Hpre) as Hskip.
    rewrite <- Hcut, Hlen in Hskip. rewrite Hskip. simpl.
    rewrite Heq. destruct (pubkeys r !! n); reflexivity.
  - intros n Hn Hbefore.
    destruct (addrs_cut_at (addrs r) target n None Hn Hbefore)
      as (Hcut & Hpre & Hlen).
    unfold Roster.GetPublicKey.
    pose proof (GetPublicKey_loop_skip r target (take n (addrs r))
                  (None :: drop (S n) (addrs r)) 0 Hpre) as Hskip.
    rewrite <- Hcut in Hskip. rewrite Hskip. reflexivity.
  - intros Hall. unfold Roster.GetPublicKey.
    pose proof (GetPublicKey_loop_skip r target (addrs r) [] 0 Hall) as Hskip.
    rewrite app_nil_r in Hskip. rewrite Hskip. reflexivity.
  - intros Hr Hnil.
    destruct (GetPublicKey_loop_cases r target (addrs r) 0 Hnil)
      as [[Hret Hnone]|(n & addr & p & Hn & Hyes & Hfirst & Hp & Hret)];
      [rewrite <- Hr; simpl; lia| |].
    + split; [|intros _; exact Hret].
      intros (m & addr & Hm & Heq). rewrite (Hnone m addr Hm) in Heq. discriminate.
    + split.
      * intros _. exists n, addr, p. auto.
      * intros Hnone. rewrite (Hnone n addr Hn) in Hyes. discriminate.
Qed.

(** C10: the operations that produce a roster keep the address list and
    the public-key list of equal length, with entry [i] of both taken from
    the same participant.  [Take] copies entry [k] of both lists for each
    index [k] (and returns when the indices are in range); [Apply] returns
    a roster of the same length whose entry [i] holds the address and the
    key of entry [i] of its receiver; [New] fills both lists, of length
    [Len()], from the two iterators in step (and returns when they yield at
    most [Len()] values);
    [FromProto] returns an error when the two arrays differ in length, and
    otherwise decodes entry [i] of both arrays into entry [i] of the roster. *)
Theorem roster_operations_keep_pairs r (indices : list Z) (c : ChangeSet)
    (authority : CollectiveAuthority) (Addresses : list (list byte))
    (PublicKeys : list Any) :
  paired r ->
  ((Forall (fun k => 0 <= k < Z.of_nat (Len r)) indices ->
    exists r', Take r indices = Return r')
   /\ (forall r', Take r indices = Return r' ->
        paired r' /\ Len r' = length indices
        /\ forall (i : nat) k, indices !! i = Some k ->
             addrs r' !! i = index (addrs r) k
             /\ pubkeys r' !! i = index (pubkeys r) k))
  /\ (paired (Apply r c) /\ Len (Apply r c) = Len r
      /\ forall i : nat,
           addrs (Apply r c) !! i = addrs r !! i
           /\ pubkeys (Apply r c) !! i = pubkeys r !! i)
  /\ ((0 <= ca_Len authority ->
       (length (ca_addresses authority) `min` length (ca_publicKeys authority)
        <= Z.to_nat (ca_Len authority))%nat ->
       exists r', New authority = Return r')
      /\ (forall r', New authority = Return r' ->
           paired r' /\ Len r' = Z.to_nat (ca_Len authority)
           /\ forall (i : nat) a p,
                ca_addresses authority !! i = Some a ->
                ca_publicKeys authority !! i = Some p ->
                addrs r' !! i = Some a /\ pubkeys r' !! i = Some p))
  /\ ((length Addresses <> length PublicKeys ->
       FromProto (RosterPb Addresses PublicKeys)
       = Return (Err (MismatchArrayLength (length Addresses) (length PublicKeys))))
      /\ (length Addresses = length PublicKeys ->
          Forall (fun pk => exists key, DecodeKey pk = Ok key) PublicKeys ->
          exists r', FromProto (RosterPb Addresses PublicKeys) = Return (Ok r'))
      /\ (forall r', FromProto (RosterPb Addresses PublicKeys) = Return (Ok r') ->
           paired r' /\ Len r' = length Addresses
           /\ forall (i : nat) addrpb, Addresses !! i = Some addrpb ->
                addrs r' !! i = Some (FromText addrpb)
                /\ exists pk key, PublicKeys !! i = Some pk
                     /\ DecodeKey pk = Ok key
                     /\ pubkeys r' !! i = Some key)).
Proof.
  intros Hr. split; [|split; [|split]].
  - (* Take *)
    split; [intros Hin; apply Take_loop_returns; assumption|].
    intros r' Hrun. apply Take_loop_spec in Hrun as (Hla & Hlp & _ & Hcopy).
    simpl in Hla, Hlp, Hcopy. unfold make in *.
    rewrite length_replicate in Hla. rewrite length_replicate in Hlp.
    split; [unfold paired; congruence|]. split; [exact Hla|].
    intros i k Hk. apply Hcopy; [exact Hk| |];
      rewrite length_replicate; apply lookup_lt_Some in Hk; exact Hk.
  - (* Apply *)
    unfold Apply. split; [exact Hr|]. split; [reflexivity|].
    intros i. split; reflexivity.
  - (* New *)
    unfold New. split.
    + intros Hlen Hiter.
      destruct (Z.ltb_spec (ca_Len authority) 0) as [?|_]; [lia|].
      apply New_loop_returns. simpl. unfold make.
      rewrite length_replicate. lia.
    + intros r'. destruct (Z.ltb_spec (ca_Len authority) 0) as [?|_]; [discriminate|].
      intros Hrun.
      apply New_loop_spec in Hrun as (Hla & Hlp & _ & Hcopy);
        [|unfold paired, make; simpl; rewrite !length_replicate; reflexivity].
      simpl in Hla, Hlp. unfold make in *. rewrite length_replicate in Hla. rewrite length_replicate in Hlp.
      split; [unfold paired; congruence|]. split; [exact Hla|].
      intros i a p Ha Hp. apply (Hcopy i a p Ha Hp).
  - (* FromProto *)
    unfold Roster.FromProto.
    destruct (decide (length Addresses = length PublicKeys)) as [Heq|Hne].
    + split; [intros ?; contradiction|]. split.
      * intros _ Hkeys. apply FromProto_loop_returns. intros j Hj. simpl.
        destruct (lookup_lt_is_Some_2 PublicKeys j) as [pk Hpk]; [lia|].
        rewrite Forall_lookup in Hkeys. destruct (Hkeys j pk Hpk) as [key Hkey].
        eauto.
      * intros r' Hrun.
        apply FromProto_loop_spec in Hrun as (Hla & Hlp & _ & Hcopy).
        simpl in Hla, Hlp, Hcopy. unfold make in *.
        rewrite length_replicate in Hla. rewrite length_replicate in Hlp.
        split; [unfold paired; congruence|]. split; [exact Hla|].
        intros i addrpb Hi. apply lookup_lt_Some in Hi as Hlt.
        apply Hcopy; [exact Hi| |]; rewrite length_replicate; lia.
    + split; [reflexivity|]. split; [intros ?; contradiction|].
      intros r' Hrun. discriminate.
Qed.

End RosterFacts.

(** C9 as stated fails: the roster that [New] makes of an authority whose
    first address is nil has as many keys as addresses and an entry whose
    address is 20, yet [GetPublicKey] returns nothing for 20: it panics on
    the nil address it meets first. *)
Lemma GetPublicKey_panics_before_match :
  Roster.New Sample.nil_then_20_authority = Return Sample.nil_then_20
  /\ Roster.paired Sample.nil_then_20
  /\ (exists (m : nat) addr,
        Roster.addrs Sample.nil_then_20 !! m = Some (Some addr)
        /\ Nat.eqb addr 20 = true)
  /\ Roster.GetPublicKey Nat.eqb Sample.nil_then_20 20%nat = Panic
  /\ ~ exists p z,
         Roster.GetPublicKey Nat.eqb Sample.nil_then_20 20%nat = Return (p, z).
Proof.
  split; [reflexivity|]. split; [reflexivity|]. split.
  - exists 1%nat, 20%nat. split; reflexivity.
  - split; [reflexivity|]. intros (p & z & Hrun). vm_compute in Hrun. discriminate.
Qed.

(** C9 (amended) on sample rosters: in [Sample.two] the key of address 20 is
    found at index 1 and address 30 is not found; the call panics on the
    roster whose first address is nil and on the roster that has no key at
    the index of address 20. *)
Lemma GetPublicKey_first_match_witness :
  Roster.GetPublicKey Nat.eqb Sample.two 20%nat = Return (Some 2%nat, 1)
  /\ Roster.GetPublicKey Nat.eqb Sample.two 30%nat = Return (None, -1)
  /\ Roster.GetPublicKey Nat.eqb Sample.nil_then_20 20%nat = Panic
  /\ Roster.GetPublicKey Nat.eqb Sample.short_of_keys 20%nat = Panic
  /\ (exists (n : nat) p,
        Roster.pubkeys Sample.two !! n = Some p
        /\ Roster.GetPublicKey Nat.eqb Sample.two 20%nat = Return (p, Z.of_nat n)).
Proof.
  destruct (GetPublicKey_first_match Nat.eqb Sample.two 20%nat)
    as (Hfound & _ & _ & Hpaired).
  destruct (GetPublicKey_first_match Nat.eqb Sample.two 30%nat)
    as (_ & _ & Habsent & _).
  destruct (GetPublicKey_first_match Nat.eqb Sample.nil_then_20 20%nat)
    as (_ & Hnil & _ & _).
  destruct (GetPublicKey_first_match Nat.eqb Sample.short_of_keys 20%nat)
    as (Hshort & _ & _ & _).
  split; [|split; [|split; [|split]]].
  - apply (Hfound 1%nat 20%nat); [reflexivity|reflexivity|].
    intros [|j] a Hj Ha; [|lia]. inversion Ha. exists 10%nat. split; reflexivity.
  - apply Habsent. repeat constructor; eexists; split; reflexivity.
  - apply (Hnil 0%nat); [reflexivity|]. intros j a Hj. lia.
  - apply (Hshort 1%nat 20%nat); [reflexivity|reflexivity|].
    intros [|j] a Hj Ha; [|lia]. inversion Ha. exists 10%nat. split; reflexivity.
  - destruct Hpaired as [Hsome _];
      [reflexivity|repeat constructor; eexists; reflexivity|].
    destruct Hsome as (n & addr & p & _ & _ & _ & Hp & Hret).
    { exists 1%nat, 20%nat. split; reflexivity. }
    exists n, p. split; assumption.
Defined.

(** C10 on [Sample.two]: the entries 1, 0, 1 taken from it, its entry 1
    after [Apply], the roster made from [Sample.two_authority], and the
    arrays of lengths 2 and 1 refused. *)
Lemma roster_operations_keep_pairs_witness :
  Roster.paired Sample.two
  /\ (exists r', Roster.Take Sample.two [1; 0; 1] = Return r' /\ Roster.paired r')
  /\ (Roster.addrs (Roster.Apply Sample.two tt) !! 1%nat = Some (Some 20%nat)
      /\ Roster.pubkeys (Roster.Apply Sample.two tt) !! 1%nat = Some (Some 2%nat))
  /\ (exists r', Roster.New Sample.two_authority = Return r' /\ Roster.paired r')
  /\ Roster.FromProto Sample.FromText Sample.FromProto
       (Roster.RosterPb [[x01]; [x01; x02]] [3%nat])
     = Return (Err (MismatchArrayLength 2 1)).
Proof.
  destruct (roster_operations_keep_pairs (ChangeSet := unit)
              Sample.FromText Sample.FromProto Sample.two [1; 0; 1] tt
              Sample.two_authority [[x01]; [x01; x02]] [3%nat])
    as ((Htake & Htaken) & (_ & _ & Hsame) & (Hnew & Hmade) & (Hrefused & _)).
  { reflexivity. }
  split; [reflexivity|]. split; [|split; [|split]].
  - destruct Htake as [r' Hr'].
    { repeat constructor; vm_compute; congruence. }
    exists r'. split; [exact Hr'|]. apply (Htaken r' Hr').
  - destruct (Hsame 1%nat) as [Ha Hp]. rewrite Ha, Hp. split; reflexivity.
  - destruct Hnew as [r' Hr'].
    { vm_compute; congruence. }
    { vm_compute. lia. }
    exists r'. split; [exact Hr'|]. apply (Hmade r' Hr').
  - apply Hrefused. vm_compute. lia.
Defined.

(** ** The processor *)

Section ProcessorFacts.
Import Processor.

Context {Address Block BlockLink Signature Authority Genesis : Type}.
Context {Tree Snapshot StateMachine : Type}.
Context {pbft : @PBFT Address Block BlockLink Signature Genesis Tree StateMachine}.
Context {hashtree : @Hashtree Tree Snapshot}.
Context {types : @Types Block BlockLink Signature Authority Genesis}.

Local Abbreviation processor := (@processor BlockLink Genesis Tree StateMachine).
Local Abbreviation Message := (@Message Block Signature Genesis).

Implicit Types (h : processor) (msg : Message) (from : Address).
Implicit Types (watch : list BlockLink) (block : Block).

(** *** Waiting for the chain *)

Lemma store_links_sync watch : forall h,
  sync (fold_left store_link watch h) = sync h.
Proof. induction watch as [|l watch IH]; intros h; simpl; [|rewrite IH]; done. Qed.

Lemma store_links_genesis watch : forall h,
  genesis (fold_left store_link watch h) = genesis h.
Proof. induction watch as [|l watch IH]; intros h; simpl; [|rewrite IH]; done. Qed.

Lemma catch_up_behind watch : forall h,
  Forall (behind h) watch ->
  catch_up h watch = (false, fold_left store_link watch h).
Proof.
  induction watch as [|l watch IH]; intros h Hall; simpl; [reflexivity|].
  apply Forall_cons in Hall as [Hl Hall]. unfold behind in Hl.
  destruct (N.leb_spec (sync h) (GetIndex (GetBlock l))) as [?|_]; [lia|].
  apply IH. exact Hall.
Qed.

Lemma catch_up_reached pre : forall h link post,
  Forall (behind h) pre ->
  (sync h <= GetIndex (GetBlock link))%N ->
  catch_up h (pre ++ link :: post)
  = (true, fold_left store_link (pre ++ [link]) h).
Proof.
  induction pre as [|l pre IH]; intros h link post Hall Hlink; simpl.
  - destruct (N.leb_spec (sync h) (GetIndex (GetBlock link))) as [_|?]; [done|lia].
  - apply Forall_cons in Hall as [Hl Hall]. unfold behind in Hl.
    destruct (N.leb_spec (sync h) (GetIndex (GetBlock l))) as [?|_]; [lia|].
    apply IH; assumption.
Qed.

Lemma catch_up_stores watch : forall h,
  exists stored, (catch_up h watch).2 = fold_left store_link stored h.
Proof.
  induction watch as [|l watch IH]; intros h; simpl.
  - exists []. reflexivity.
  - destruct (sync h <=? GetIndex (GetBlock l))%N.
    + exists [l]. reflexivity.
    + destruct (IH (store_link h l)) as [stored Hs].
      exists (l :: stored). exact Hs.
Qed.

(** *** The dispatch of the messages *)

(** C8: for a message that is none of the five kinds, [Invoke] and [Process]
    both return the error "unsupported message of type ..." and the state is
    the one they were called in. *)
Theorem unsupported_message_refused h from msg watch :
  recognized msg = false ->
  Invoke h from msg watch = (Return (Err (UnsupportedMessage (type_of msg))), h)
  /\ Process h {| req_Address := from; req_Message := msg |}
     = (Return (Err (UnsupportedMessage (type_of msg))), h).
Proof.
  destruct msg; simpl; intros Hkind; try discriminate.
  split; reflexivity.
Qed.

(** C1 (amended): when a [BlockMessage] arrives and the latest known index is
    above the length of the store, [Invoke] stays blocked, whatever the number
    of links delivered, as long as every delivered link is below the latest
    known index: there is no deadline.  It calls [Prepare] on the block, in
    the state where the delivered links are stored, once a link at or above
    the latest known index is delivered, and not before. *)
Theorem Invoke_waits_for_latest h from block :
  (blocks_Len h < sync h)%N ->
  (forall watch,
     Forall (behind h) watch ->
     Invoke h from (BlockMessage block) watch
     = (Blocked, fold_left store_link watch h))
  /\ (forall pre link post,
       Forall (behind h) pre ->
       (sync h <= GetIndex (GetBlock link))%N ->
       Invoke h from (BlockMessage block) (pre ++ link :: post)
       = prepare_reply (pbft_Prepare (fold_left store_link (pre ++ [link]) h) block)).
Proof.
  intros Hlate. unfold Invoke.
  destruct (N.ltb_spec (blocks_Len h) (sync h)) as [_|?]; [|lia].
  split.
  - intros watch Hall. rewrite (catch_up_behind watch h Hall). reflexivity.
  - intros pre link post Hall Hlink.
    rewrite (catch_up_reached pre h link post Hall Hlink).
    unfold prepare_reply.
    destruct (pbft_Prepare _ block) as [[digest|e] h']; reflexivity.
Qed.


(** C5: the hash of a commit request is the marshalled prepare signature,
    and the reply of [Invoke] to a [CommitMessage] the state machine accepts
    is the marshalled signature of the message. *)
Theorem commit_hash_is_marshalled_signature h h' from watch id to signature buffer :
  MarshalBinary signature = Ok buffer ->
  pbft_Commit h id signature = (None, h') ->
  (exists c, Requests.newCommitRequest MarshalBinary to signature = Ok c
        /\ Requests.prepare c = signature
        /\ Requests.GetHash c = buffer)
  /\ (forall c, Requests.newCommitRequest MarshalBinary to signature = Ok c ->
            MarshalBinary (Requests.prepare c) = Ok (Requests.GetHash c))
  /\ Invoke h from (CommitMessage id signature) watch = (Return (Ok buffer), h').
Proof.
  intros Hmarshal Hcommit. unfold Requests.newCommitRequest.
  rewrite Hmarshal. split; [|split].
  - eexists. split; [reflexivity|]. split; reflexivity.
  - intros c Hc. inversion Hc; subst c. simpl. exact Hmarshal.
  - simpl. rewrite Hcommit, Hmarshal. reflexivity.
Qed.

(** *** The genesis *)

Lemma root_mismatch_None (match_ : option Digest) (root : Digest) :
  root_mismatch match_ root = None <-> match_ = None \/ match_ = Some root.
Proof.
  unfold root_mismatch. destruct match_ as [expected|].
  - destruct (decide (expected = root)) as [->|Hne].
    + split; auto.
    + split; [discriminate|]. intros [?|[=]]; [discriminate|contradiction].
  - split; auto.
Qed.

(** The ways [storeGenesis] ends: before the tree is committed the state is
    untouched; afterwards the cache holds the committed tree. *)
Lemma storeGenesis_cases h (roster : Authority) (match_ : option Digest) o h' :
  storeGenesis h roster match_ = (o, h') ->
  (h' = h /\ exists e, o = Return (Some e))
  \/ exists value staged g committed,
       Serialize roster = Ok value
       /\ Tree_Stage (tree h) (fun snap => Snapshot_Set snap keyRoster value) = Ok staged
       /\ root_mismatch match_ (copy_Digest (Tree_GetRoot staged)) = None
       /\ NewGenesis roster (copy_Digest (Tree_GetRoot staged)) = Ok g
       /\ Tree_Commit staged = Ok committed
       /\ ((genesis h <> None
            /\ o = Return (Some (Errorf "set genesis failed" (Failure "ALREADY_SET")))
            /\ h' = tree_Set h committed)
           \/ (genesis h = None /\ started h = true /\ o = Panic
               /\ h' = watcher_Notify (set_genesis (tree_Set h committed) (Some g))
                         {| Index := 0 |})
           \/ (genesis h = None /\ started h = false /\ o = Return None
               /\ h' = bootstrap h committed g)).
Proof.
  unfold storeGenesis. intros Hrun.
  destruct (Serialize roster) as [value|e] eqn:Hvalue;
    [|inversion Hrun; left; eauto].
  destruct (Tree_Stage (tree h) _) as [staged|e] eqn:Hstaged;
    [|inversion Hrun; left; eauto].
  destruct (root_mismatch match_ _) as [e|] eqn:Hroot;
    [inversion Hrun; left; eauto|].
  destruct (NewGenesis roster _) as [g|e] eqn:Hg;
    [|inversion Hrun; left; eauto].
  destruct (Tree_Commit staged) as [committed|e] eqn:Hcommitted;
    [|inversion Hrun; left; eauto].
  right. exists value, staged, g, committed. repeat (split; [done|]).
  simpl in Hrun. destruct (genesis h) as [g0|] eqn:Hslot; simpl in Hrun.
  - inversion Hrun. left. done.
  - right. unfold close_started in Hrun. simpl in Hrun.
    destruct (started h) eqn:Hstarted; inversion Hrun; [left|right]; done.
Qed.

(** Once a genesis is set, a [GenesisMessage] is answered without a change. *)
Lemma deliver_after_genesis (n : nat) h from (g : Genesis) :
  genesis h <> None ->
  deliver n h {| req_Address := from; req_Message := GenesisMessage g |}
  = (replicate n (Return (Ok None)), h).
Proof.
  intros Hset. induction n as [|n IH]; simpl; [reflexivity|].
  unfold Process at 1. simpl.
  destruct (genesis h) as [g0|]; [|contradiction]. simpl.
  rewrite IH. reflexivity.
Qed.

(** C2: on a processor without genesis whose barrier is open, a
    [GenesisMessage] whose roster serializes, whose tree stages and commits,
    and whose root is the root of the staged tree, delivered [n >= 1] times,
    returns no error each time.  The first delivery stores the genesis, sets
    the committed tree, notifies the event of index 0 and closes the barrier;
    the state after [n] deliveries is the state after the first one. *)
Theorem genesis_delivery_idempotent h from (msg : Genesis) value staged committed g :
  genesis h = None ->
  started h = false ->
  Serialize (GetRoster msg) = Ok value ->
  Tree_Stage (tree h) (fun snap => Snapshot_Set snap keyRoster value) = Ok staged ->
  copy_Digest (Tree_GetRoot staged) = GetRoot msg ->
  NewGenesis (GetRoster msg) (GetRoot msg) = Ok g ->
  Tree_Commit staged = Ok committed ->
  let req := {| req_Address := from; req_Message := GenesisMessage msg |} in
  let h1 := bootstrap h committed g in
  Process h req = (Return (Ok None), h1)
  /\ (genesis h1 = Some g /\ tree h1 = committed /\ started h1 = true
      /\ watcher h1 = watcher h ++ [{| Index := 0 |}])
  /\ forall n : nat, (1 <= n)%nat ->
       deliver n h req = (replicate n (Return (Ok None)), h1).
Proof.
  intros Hslot Hopen Hvalue Hstaged Hroot Hg Hcommitted req h1. unfold h1.
  assert (Hfirst : Process h req = (Return (Ok None), bootstrap h committed g)).
  { unfold Process, storeGenesis. simpl.
    rewrite Hslot, Hvalue, Hstaged, Hroot. simpl.
    rewrite decide_True by reflexivity.
    rewrite Hg, Hcommitted. simpl.
    unfold close_started. simpl. rewrite Hopen. reflexivity. }
  split; [exact Hfirst|]. split; [repeat split|].
  intros [|n] Hn; [lia|]. simpl. rewrite Hfirst.
  unfold req. rewrite deliver_after_genesis by discriminate. reflexivity.
Qed.

(** C4: on a processor whose genesis slot is empty, [storeGenesis] called
    with an expected root that differs from the root of the staged tree
    returns the mismatch error.  It returns an error exactly when a step
    fails: the roster does not serialize, the tree does not stage, the
    expected root differs from the root of the staged tree, the genesis
    cannot be created or the staged tree does not commit.  Whenever it
    returns an error no partial state is observable: the processor is as it
    was, with the tree of the cache unchanged, the slot empty, the barrier
    as before and no event notified. *)
Theorem storeGenesis_failure_state h (roster : Authority) (match_ : option Digest) :
  genesis h = None ->
  (forall value staged expected,
     Serialize roster = Ok value ->
     Tree_Stage (tree h) (fun snap => Snapshot_Set snap keyRoster value) = Ok staged ->
     match_ = Some expected ->
     expected <> copy_Digest (Tree_GetRoot staged) ->
     storeGenesis h roster match_
     = (Return (Some (MismatchTreeRoot expected (copy_Digest (Tree_GetRoot staged)))), h))
  /\ ((exists e h', storeGenesis h roster match_ = (Return (Some e), h'))
      <-> is_Err (Serialize roster)
          \/ exists value,
               Serialize roster = Ok value
               /\ (is_Err (Tree_Stage (tree h)
                             (fun snap => Snapshot_Set snap keyRoster value))
                   \/ exists staged,
                        Tree_Stage (tree h)
                          (fun snap => Snapshot_Set snap keyRoster value) = Ok staged
                        /\ ((exists expected,
                               match_ = Some expected
                               /\ expected <> copy_Digest (Tree_GetRoot staged))
                            \/ is_Err (NewGenesis roster
                                         (copy_Digest (Tree_GetRoot staged)))
                            \/ is_Err (Tree_Commit staged))))
  /\ (forall e h',
        storeGenesis h roster match_ = (Return (Some e), h') ->
        h' = h /\ tree h' = tree h /\ genesis h' = None
        /\ started h' = started h /\ watcher h' = watcher h).
Proof.
  intros Hslot. split; [|split].
  - intros value staged expected Hvalue Hstaged -> Hne.
    unfold storeGenesis. rewrite Hvalue, Hstaged. simpl.
    rewrite decide_False by exact Hne. reflexivity.
  - split.
    + intros (e & h' & Hrun). unfold storeGenesis in Hrun.
      destruct (Serialize roster) as [value|e0] eqn:Hvalue; [|left; exact I].
      right. exists value. split; [reflexivity|].
      destruct (Tree_Stage (tree h) _) as [staged|e0] eqn:Hstaged; [|left; exact I].
      right. exists staged. split; [reflexivity|].
      destruct (root_mismatch match_ _) as [e1|] eqn:Hroot.
      { left. unfold root_mismatch in Hroot.
        destruct match_ as [expected|]; [|discriminate].
        destruct (decide (expected = copy_Digest (Tree_GetRoot staged)));
          [discriminate|]. exists expected. split; [reflexivity|assumption]. }
      destruct (NewGenesis roster _) as [g|e0] eqn:Hg; [|right; left; exact I].
      destruct (Tree_Commit staged) as [committed|e0] eqn:Hcommitted;
        [|right; right; exact I].
      simpl in Hrun. rewrite Hslot in Hrun. simpl in Hrun.
      unfold close_started in Hrun. simpl in Hrun.
      destruct (started h); discriminate.
    + intros Hfail. unfold storeGenesis.
      destruct Hfail as [Hs|(value & Hvalue & [Ht|(staged & Hstaged & Hfail)])].
      * revert Hs. destruct (Serialize roster); [intros []|eauto].
      * rewrite Hvalue. revert Ht.
        destruct (Tree_Stage (tree h) _); [intros []|eauto].
      * rewrite Hvalue, Hstaged. cbv zeta.
        destruct (root_mismatch match_ _) as [e1|] eqn:Hroot; [eauto|].
        apply root_mismatch_None in Hroot.
        destruct Hfail as [(expected & -> & Hne)|[Hg|Hc]].
        -- destruct Hroot as [[=]|[= ->]]. contradiction.
        -- revert Hg. destruct (NewGenesis roster _); [intros []|eauto].
        -- destruct (NewGenesis roster _); [|eauto].
           revert Hc. destruct (Tree_Commit staged); [intros []|eauto].
  - intros e h' Hrun.
    apply storeGenesis_cases in Hrun
      as [[-> _]|(value & staged & g & committed & _ & _ & _ & _ & _
                  & [(Hset & _)|[(_ & _ & [=] & _)|(_ & _ & [=] & _)]])].
    + repeat split; try reflexivity. exact Hslot.
    + contradiction.
Qed.

(** C6: the roster is kept under the key of 32 zero bytes.  After a
    successful [storeGenesis], given a tree that reads back what was staged
    and committed and a factory that decodes what a roster serializes to, the
    committed tree holds the serialized roster under that key and
    [getCurrentRoster] decodes it to the roster that was stored. *)
Theorem roster_stored_under_zero_key h h' (roster : Authority) (match_ : option Digest) :
  tree_contract ->
  roster_codec_contract ->
  storeGenesis h roster match_ = (Return None, h') ->
  keyRoster = replicate 32 x00
  /\ exists value,
       Serialize roster = Ok value
       /\ Tree_Get (tree h') keyRoster = Ok value
       /\ getCurrentRoster h' = Ok roster.
Proof.
  intros Htree Hcodec Hrun. split; [reflexivity|].
  apply storeGenesis_cases in Hrun
    as [[_ [e [=]]]|(value & staged & g & committed & Hvalue & Hstaged & _ & _
                & Hcommitted & [(_ & [=] & _)|[(_ & _ & [=] & _)|(_ & _ & _ & ->)]])].
  exists value. split; [exact Hvalue|].
  pose proof (Htree _ _ _ _ _ Hstaged Hcommitted) as Hread.
  split; [exact Hread|].
  unfold getCurrentRoster, readRoster. simpl.
  rewrite Hread, (Hcodec _ _ Hvalue). reflexivity.
Qed.

End ProcessorFacts.

(** ** The claims on the sample instance *)

Section SampleRuns.
Import Processor Sample.

(** The sample tree reads back what was staged and committed. *)
Lemma sample_tree_contract : tree_contract (H0 := hashtree).
Proof.
  intros t staged committed key value Hstaged Hcommitted. simpl in *.
  inversion Hstaged; subst staged. inversion Hcommitted; subst committed.
  simpl. rewrite decide_True by reflexivity. reflexivity.
Qed.

(** The sample factory decodes what a roster serializes to. *)
Lemma sample_codec_contract : roster_codec_contract (H1 := types).
Proof.
  intros roster value Hvalue. simpl in *.
  destruct roster; [discriminate|]. inversion Hvalue; subst value. reflexivity.
Qed.

(** C8 on a fresh processor and a block request, which is none of the five
    kinds. *)
Lemma unsupported_message_refused_witness :
  recognized block_request = false
  /\ Invoke fresh 7%nat block_request []
     = (Return (Err (UnsupportedMessage "types.BlockRequest")), fresh)
  /\ Process fresh (request block_request)
     = (Return (Err (UnsupportedMessage "types.BlockRequest")), fresh).
Proof.
  split; [reflexivity|].
  apply (unsupported_message_refused fresh 7%nat block_request []).
  reflexivity.
Defined.

(** C1 as stated fails: a replica at length 3 that has heard of index 5 is
    still waiting once the links of indices 3 and 4 are delivered; [Prepare]
    has not been called. *)
Lemma Invoke_still_waits_after_links_3_and_4 :
  blocks_Len lagging = 3%N /\ sync lagging = 5%N
  /\ (Invoke lagging 7%nat block5 [3; 4]%N).1 = Blocked
  /\ pbftsm (Invoke lagging 7%nat block5 [3; 4]%N).2 = []
  /\ ~ exists reply h', Invoke lagging 7%nat block5 [3; 4]%N
                        = (Return reply, h').
Proof.
  repeat split; try reflexivity.
  intros (reply & h' & Hrun). vm_compute in Hrun. discriminate.
Qed.

(** C1 (amended) on the same replica: blocked after the links 3 and 4, and
    [Prepare] called once the link 5 is delivered. *)
Lemma Invoke_waits_for_latest_witness :
  (blocks_Len lagging < sync lagging)%N
  /\ Invoke lagging 7%nat block5 [3; 4]%N
     = (Blocked, fold_left store_link [3; 4]%N lagging)
  /\ Invoke lagging 7%nat block5 [3; 4; 5]%N
     = prepare_reply (pbft_Prepare (fold_left store_link [3; 4; 5]%N lagging) 5%N).
Proof.
  assert (Hlate : (blocks_Len lagging < sync lagging)%N) by (vm_compute; reflexivity).
  destruct (Invoke_waits_for_latest lagging 7%nat 5%N Hlate) as [Hblocked Hprepared].
  split; [exact Hlate|]. split.
  - apply Hblocked. repeat constructor.
  - apply (Hprepared [3; 4]%N 5%N []).
    + repeat constructor.
    + vm_compute. discriminate.
Defined.



(** C5 on a replica that has prepared a block: the signature [0a 0b] is
    what the commit request hashes to and what [Invoke] replies. *)
Lemma commit_hash_is_marshalled_signature_witness :
  let h := record_call lagging (Prepared 3) in
  MarshalBinary [x0a; x0b] = Ok [x0a; x0b]
  /\ (exists c, Requests.newCommitRequest MarshalBinary [x01] [x0a; x0b] = Ok c
        /\ Requests.GetHash c = [x0a; x0b])
  /\ Invoke h 7%nat commit1 []
     = (Return (Ok [x0a; x0b]), record_call h (Committed [x01])).
Proof.
  intros h.
  destruct (commit_hash_is_marshalled_signature
              h (record_call h (Committed [x01])) 7%nat [] [x01] [x01]
              [x0a; x0b] [x0a; x0b])
    as ((c & Hc & _ & Hhash) & _ & Hreply); [reflexivity|reflexivity|].
  split; [reflexivity|]. split; [|exact Hreply].
  exists c. split; assumption.
Defined.

(** C2 on a fresh processor: [genesis1] delivered three times. *)
Lemma genesis_delivery_idempotent_witness :
  genesis fresh = None /\ started fresh = false
  /\ Process fresh (request (GenesisMessage genesis1)) = (Return (Ok None), bootstrapped)
  /\ deliver 3 fresh (request (GenesisMessage genesis1))
     = ([Return (Ok None); Return (Ok None); Return (Ok None)], bootstrapped).
Proof.
  destruct (genesis_delivery_idempotent fresh 7%nat genesis1 roster1
              [(keyRoster, roster1)] [(keyRoster, roster1)] genesis1)
    as (Hfirst & _ & Hagain); try reflexivity.
  split; [reflexivity|]. split; [reflexivity|]. split.
  - exact Hfirst.
  - apply (Hagain 3%nat). lia.
Defined.

(** C4 on a fresh processor: the root of [roster1] is expected and another
    roster is given; the empty roster, which does not serialize, is refused
    as well, and the processor stays fresh. *)
Lemma storeGenesis_failure_state_witness :
  genesis fresh = None
  /\ root1 <> copy_Digest [x05]
  /\ storeGenesis fresh [x05] (Some root1)
     = (Return (Some (MismatchTreeRoot root1 (copy_Digest [x05]))), fresh)
  /\ exists e, storeGenesis fresh [] None = (Return (Some e), fresh).
Proof.
  assert (Hslot : genesis fresh = None) by reflexivity.
  assert (Hne : root1 <> copy_Digest [x05]) by (vm_compute; discriminate).
  split; [exact Hslot|]. split; [exact Hne|]. split.
  - destruct (storeGenesis_failure_state fresh [x05] (Some root1) Hslot)
      as [Hmismatch _].
    apply (Hmismatch [x05] [(keyRoster, [x05])] root1); try reflexivity.
    exact Hne.
  - destruct (storeGenesis_failure_state fresh [] None Hslot)
      as (_ & [_ Hfails] & Hstate).
    destruct Hfails as (e & h' & Hrun); [left; exact I|].
    destruct (Hstate e h' Hrun) as [-> _]. exists e. exact Hrun.
Defined.

(** C6 on a fresh processor: [roster1] is read back. *)
Lemma roster_stored_under_zero_key_witness :
  storeGenesis fresh roster1 (Some root1) = (Return None, bootstrapped)
  /\ Tree_Get (tree bootstrapped) (replicate 32 x00) = Ok roster1
  /\ getCurrentRoster bootstrapped = Ok roster1.
Proof.
  assert (Hrun : storeGenesis fresh roster1 (Some root1) = (Return None, bootstrapped))
    by (vm_compute; reflexivity).
  destruct (roster_stored_under_zero_key fresh bootstrapped roster1 (Some root1)
              sample_tree_contract sample_codec_contract Hrun)
    as (Hkey & value & Hvalue & Hread & Hroster).
  split; [exact Hrun|]. split; [|exact Hroster].
  rewrite <- Hkey, Hread. symmetry. exact Hvalue.
Defined.

End SampleRuns.

(** ** More on the roster *)

Section RosterMore.
Import Roster.

Context {Address PublicKey Any : Type}.
Variable Equal : Address -> Address -> bool.
Variable FromText : list byte -> option Address.
Variable DecodeKey : Any -> result (option PublicKey).
Variable MarshalText : Address -> result (list byte).
Variable PackAny : option PublicKey -> result Any.
Variable nil_Any : Any.

Local Abbreviation roster := (@roster Address PublicKey).

Implicit Types (r : roster) (target : Address).

Lemma roster_eq r r' :
  addrs r = addrs r' -> pubkeys r = pubkeys r' -> r = r'.
Proof. destruct r, r'; simpl; intros -> ->; reflexivity. Qed.

Lemma index_None {A} (s : list A) (k : Z) :
  index s k = None <-> k < 0 \/ Z.of_nat (length s) <= k.
Proof.
  unfold index. destruct (Z.ltb_spec k 0) as [Hneg|Hpos].
  - split; [left; exact Hneg|reflexivity].
  - rewrite lookup_ge_None. split; [right|intros [?|?]]; lia.
Qed.

(** *** Take *)

Lemma Take_entries r (indices : list Z) r' :
  Take r indices = Return r' ->
  length (addrs r') = length indices
  /\ length (pubkeys r') = length indices
  /\ forall (i : nat) k, indices !! i = Some k ->
       addrs r' !! i = index (addrs r) k /\ pubkeys r' !! i = index (pubkeys r) k.
Proof.
  intros Hrun. apply Take_loop_spec in Hrun as (Hla & Hlp & _ & Hcopy).
  simpl in Hla, Hlp, Hcopy. unfold make in *.
  rewrite length_replicate in Hla. rewrite length_replicate in Hlp.
  split; [exact Hla|]. split; [exact Hlp|].
  intros i k Hk. apply Hcopy; [exact Hk| |];
    rewrite length_replicate; apply lookup_lt_Some in Hk; exact Hk.
Qed.

Lemma Take_loop_in_range r (indices : list Z) :
  Forall (fun k => is_Some (index (addrs r) k) /\ is_Some (index (pubkeys r) k))
    indices ->
  forall (i : nat) (new : roster), exists r', Take_loop r i indices new = Return r'.
Proof.
  induction 1 as [|k rest [[a Ha] [p Hp]] _ IH]; intros i new; simpl.
  - eauto.
  - rewrite Ha, Hp. apply IH.
Qed.

Lemma Take_loop_panics r (indices : list Z) :
  Exists (fun k => index (addrs r) k = None \/ index (pubkeys r) k = None) indices ->
  forall (i : nat) (new : roster), Take_loop r i indices new = Panic.
Proof.
  induction 1 as [k rest Hk|k rest _ IH]; intros i new; simpl.
  - destruct (index (addrs r) k) as [a|]; [|reflexivity].
    destruct (index (pubkeys r) k) as [p|]; [|reflexivity].
    destruct Hk; discriminate.
  - destruct (index (addrs r) k) as [a|]; [|reflexivity].
    destruct (index (pubkeys r) k) as [p|]; [|reflexivity].
    apply IH.
Qed.

(** [Take] panics as soon as one index is outside of the roster: negative,
    or at or beyond its length. *)
Theorem Take_panics_out_of_range r (indices : list Z) :
  paired r ->
  Exists (fun k => k < 0 \/ Z.of_nat (Len r) <= k) indices ->
  Take r indices = Panic.
Proof.
  intros Hr Hout. apply Take_loop_panics.
  apply Exists_impl with (2 := fun k Hk => or_introl (proj2 (index_None (addrs r) k) Hk)).
  exact Hout.
Qed.

(** Taking every index in order gives the roster back. *)
Theorem Take_all_is_identity r :
  paired r ->
  Take r (Z.of_nat <$> seq 0 (Len r)) = Return r.
Proof.
  intros Hr.
  assert (Hrange : Forall (fun k => 0 <= k < Z.of_nat (Len r))
                     (Z.of_nat <$> seq 0 (Len r))).
  { rewrite Forall_fmap, Forall_seq. intros j Hj. simpl. lia. }
  pose proof (Take_loop_returns r _ Hr Hrange) as Hreturns.
  assert (exists r', Take r (Z.of_nat <$> seq 0 (Len r)) = Return r') as [r' Hr']
    by apply Hreturns.
  rewrite Hr'. f_equal.
  apply Take_entries in Hr' as (Hla & Hlp & Hcopy).
  rewrite length_fmap, length_seq in Hla, Hlp.
  assert (Hentry : forall i : nat,
             addrs r' !! i = addrs r !! i /\ pubkeys r' !! i = pubkeys r !! i).
  { intros i. destruct (decide (i < Len r)%nat) as [Hi|Hi].
    - destruct (Hcopy i (Z.of_nat i)) as [Ha Hp].
      { rewrite list_lookup_fmap, lookup_seq_lt by exact Hi. reflexivity. }
      rewrite Ha, Hp, !index_lookup, Nat2Z.id by lia. done.
    - unfold Len in *. rewrite !lookup_ge_None_2; [done|rewrite <- Hr| | |]; lia. }
  apply roster_eq; apply list_eq; intros i; apply Hentry.
Qed.

(** Taking from a taken roster is taking once: the entries [js] of the
    entries [is] of [r] are the entries [is[j]] of [r]. *)
Theorem Take_of_Take r (is_ js : list Z) r1 r2 :
  Take r is_ = Return r1 ->
  Take r1 js = Return r2 ->
  exists ks, mapM (index is_) js = Some ks /\ Take r ks = Return r2.
Proof.
  intros H1 H2.
  apply Take_entries in H1 as (Hla1 & Hlp1 & Hcopy1).
  apply Take_entries in H2 as (Hla2 & Hlp2 & Hcopy2).
  (* every index of [js] is an index of [is] *)
  assert (Hjs : Forall (fun j => is_Some (index is_ j)) js).
  { apply Forall_lookup. intros i j Hj.
    destruct (Hcopy2 i j Hj) as [Ha _].
    assert (is_Some (index (addrs r1) j)) as [a Hj1].
    { rewrite <- Ha. apply lookup_lt_is_Some. rewrite Hla2.
      apply lookup_lt_Some in Hj. exact Hj. }
    destruct (index is_ j) as [k|] eqn:Hk; [eauto|].
    apply index_None in Hk. rewrite <- Hla1 in Hk.
    apply index_None in Hk. congruence. }
  destruct (mapM (index is_) js) as [ks|] eqn:Hks;
    [|apply mapM_None_1 in Hks; apply Exists_exists in Hks as (j & Hin & Hnone);
      rewrite Forall_forall in Hjs; destruct (Hjs j Hin) as [? ?]; congruence].
  exists ks. split; [reflexivity|].
  apply mapM_Some_1 in Hks.
  (* entry [i] of [ks] is entry [js[i]] of [is] *)
  assert (Hk : forall (i : nat) j k, js !! i = Some j -> ks !! i = Some k ->
             index is_ j = Some k).
  { intros i j k Hj Hk. eapply Forall2_lookup_lr in Hks; eauto. }
  assert (Hvia : forall (j k : Z), index is_ j = Some k ->
             index (addrs r1) j = index (addrs r) k
             /\ index (pubkeys r1) j = index (pubkeys r) k).
  { intros j k Hjk. unfold index in Hjk |- * at 1 3.
    destruct (j <? 0); [discriminate|]. apply Hcopy1. exact Hjk. }
  assert (Hrange : Forall (fun k => is_Some (index (addrs r) k)
                                   /\ is_Some (index (pubkeys r) k)) ks).
  { apply Forall_lookup. intros i k Hi.
    destruct (Forall2_lookup_r _ _ _ _ _ Hks Hi) as (j & Hj & Hjk).
    destruct (Hvia j k Hjk) as [Ha Hp].
    destruct (Hcopy2 i j Hj) as [Ha2 Hp2].
    rewrite <- Ha, <- Hp, <- Ha2, <- Hp2.
    apply lookup_lt_Some in Hj.
    split; apply lookup_lt_is_Some; lia. }
  pose proof (Take_loop_in_range r ks Hrange) as Hreturns.
  assert (exists r3, Take r ks = Return r3) as [r3 Hr3] by apply Hreturns.
  rewrite Hr3. f_equal.
  apply Take_entries in Hr3 as (Hla3 & Hlp3 & Hcopy3).
  apply Forall2_length in Hks as Hlen.
  assert (Hentry : forall i : nat,
             addrs r3 !! i = addrs r2 !! i /\ pubkeys r3 !! i = pubkeys r2 !! i).
  { intros i. destruct (decide (i < length js)%nat) as [Hi|Hi].
    - destruct (lookup_lt_is_Some_2 js i Hi) as [j Hj].
      destruct (lookup_lt_is_Some_2 ks i) as [k Hki]; [lia|].
      destruct (Hcopy3 i k Hki) as [Ha3 Hp3].
      destruct (Hcopy2 i j Hj) as [Ha2 Hp2].
      destruct (Hvia j k (Hk i j k Hj Hki)) as [Ha Hp].
      rewrite Ha3, Hp3, Ha2, Hp2, Ha, Hp. done.
    - rewrite !lookup_ge_None_2; [done| | | |]; lia. }
  apply roster_eq; apply list_eq; intros i; apply Hentry.
Qed.

(** *** GetPublicKey *)

Lemma GetPublicKey_loop_sound r target (rest : list (option Address)) :
  forall (i : nat) p z,
    GetPublicKey_loop Equal i rest r target = Return (p, z) ->
    (z = -1 /\ p = None
     /\ forall (j : nat) a, rest !! j = Some a ->
          exists addr, a = Some addr /\ Equal addr target = false)
    \/ exists (n : nat) addr,
         z = Z.of_nat (i + n)
         /\ rest !! n = Some (Some addr) /\ Equal addr target = true
         /\ pubkeys r !! (i + n)%nat = Some p
         /\ forall (j : nat) a, (j < n)%nat -> rest !! j = Some a ->
              exists addr', a = Some addr' /\ Equal addr' target = false.
Proof.
  induction rest as [|a rest IH]; intros i p z Hrun; simpl in Hrun.
  - inversion Hrun; subst. left. repeat split. intros j a Hj. discriminate.
  - destruct a as [addr|]; [|discriminate].
    destruct (Equal addr target) eqn:Heq.
    + destruct (pubkeys r !! i) as [p'|] eqn:Hp; [|discriminate].
      inversion Hrun; subst. right. exists 0%nat, addr.
      rewrite Nat.add_0_r. repeat split; try done. intros j a Hj. lia.
    + apply IH in Hrun as [(-> & -> & Hnone)|(n & addr' & -> & Hn & Hyes & Hp & Hfirst)].
      * left. repeat split. intros [|j] a Hj; simpl in Hj; [|eauto].
        inversion Hj; subst. eauto.
      * right. exists (S n), addr'.
        replace (i + S n)%nat with (S i + n)%nat by lia.
        repeat split; try done.
        intros [|j] a Hj Ha; simpl in Ha.
        { inversion Ha; subst. eauto. }
        apply (Hfirst j); [lia|done].
Qed.

(** Whatever the roster, well formed or not, what [GetPublicKey] returns
    is right: either -1 with a nil key, no address being equal to the
    target, or an index within the roster with the key at that index, the
    address at that index being the first equal to the target. *)
Theorem GetPublicKey_sound r target p (z : Z) :
  GetPublicKey Equal r target = Return (p, z) ->
  (z = -1 /\ p = None
   /\ forall (j : nat) a, addrs r !! j = Some a ->
        exists addr, a = Some addr /\ Equal addr target = false)
  \/ exists (n : nat) addr,
       z = Z.of_nat n /\ (n < Len r)%nat
       /\ addrs r !! n = Some (Some addr) /\ Equal addr target = true
       /\ pubkeys r !! n = Some p
       /\ forall (j : nat) a, (j < n)%nat -> addrs r !! j = Some a ->
            exists addr', a = Some addr' /\ Equal addr' target = false.
Proof.
  intros Hrun. apply GetPublicKey_loop_sound in Hrun
    as [?|(n & addr & -> & Hn & Hyes & Hp & Hfirst)]; [left; assumption|].
  right. exists n, addr. simpl in *.
  repeat split; try done. apply lookup_lt_Some in Hn. exact Hn.
Qed.

(** *** FromProto *)

Lemma FromProto_loop_outcome (PublicKeys : list Any) (rest : list (list byte)) :
  forall (i : nat) (new : roster),
    (i + length rest <= length PublicKeys)%nat ->
    (exists r', FromProto_loop FromText DecodeKey i rest PublicKeys new = Return (Ok r')
        /\ forall j pk, (i <= j < i + length rest)%nat -> PublicKeys !! j = Some pk ->
             exists key, DecodeKey pk = Ok key)
    \/ (exists (j : nat) pk cause,
           (i <= j < i + length rest)%nat
           /\ PublicKeys !! j = Some pk /\ DecodeKey pk = Err cause
           /\ (forall j' pk', (i <= j' < j)%nat -> PublicKeys !! j' = Some pk' ->
                 exists key, DecodeKey pk' = Ok key)
           /\ FromProto_loop FromText DecodeKey i rest PublicKeys new
              = Return (Err (Errorf "couldn't decode public key" cause))).
Proof.
  induction rest as [|addrpb rest IH]; intros i new Hlen; simpl in *.
  - left. eexists. split; [reflexivity|]. intros j pk Hj. lia.
  - destruct (lookup_lt_is_Some_2 PublicKeys i) as [pk Hpk]; [lia|].
    rewrite Hpk. destruct (DecodeKey pk) as [key|cause] eqn:Hkey.
    + destruct (IH (S i) (set_pubkey i key (set_addr i (FromText addrpb) new)))
        as [(r' & Hrun & Hall)|(j & pk' & cause & Hj & Hpk' & Hcause & Hbefore & Hrun)];
        [lia| |].
      * left. exists r'. split; [exact Hrun|].
        intros j pk' Hj Hpk'. destruct (decide (j = i)) as [->|Hne].
        { rewrite Hpk in Hpk'. inversion Hpk'; subst. eauto. }
        apply (Hall j pk'); [lia|exact Hpk'].
      * right. exists j, pk', cause. repeat split; try done; try lia.
        intros j' pk'' Hj' Hpk''. destruct (decide (j' = i)) as [->|Hne].
        { rewrite Hpk in Hpk''. inversion Hpk''; subst. eauto. }
        apply (Hbefore j' pk''); [lia|exact Hpk''].
    + right. exists i, pk, cause. repeat split; try done; try lia.
Qed.

(** [FromProto] panics on one message only: the nil pointer of type
    [*Roster], whose field [Addresses] is read.  A message of another type
    is refused with the invalid-type error.  On a roster message that is
    not nil it returns a roster or an error: the error is the mismatch of
    the lengths, or else the error of the first public key that does not
    decode; a roster is returned exactly when the lengths agree and every
    key decodes. *)
Theorem FromProto_panics_only_on_nil_pointer (msg : proto_Message) :
  (FromProto FromText DecodeKey msg = Panic <-> msg = NilRosterPb)
  /\ FromProto FromText DecodeKey msg <> Blocked
  /\ match msg with
     | NilRosterPb => FromProto FromText DecodeKey msg = Panic
     | OtherPb t =>
       FromProto FromText DecodeKey msg = Return (Err (InvalidMessageType t))
     | RosterPb Addresses PublicKeys =>
       exists res,
         FromProto FromText DecodeKey msg = Return res
         /\ match res with
            | Ok _ =>
              length Addresses = length PublicKeys
              /\ Forall (fun pk => exists key, DecodeKey pk = Ok key) PublicKeys
            | Err e =>
              (length Addresses <> length PublicKeys
               /\ e = MismatchArrayLength (length Addresses) (length PublicKeys))
              \/ (length Addresses = length PublicKeys
                  /\ exists (j : nat) pk cause,
                       PublicKeys !! j = Some pk /\ DecodeKey pk = Err cause
                       /\ e = Errorf "couldn't decode public key" cause
                       /\ forall j' pk', (j' < j)%nat -> PublicKeys !! j' = Some pk' ->
                            exists key, DecodeKey pk' = Ok key)
            end
     end.
Proof.
  assert (Hroster : forall Addresses PublicKeys,
    exists res,
      FromProto FromText DecodeKey (RosterPb Addresses PublicKeys) = Return res
      /\ match res with
         | Ok _ =>
           length Addresses = length PublicKeys
           /\ Forall (fun pk => exists key, DecodeKey pk = Ok key) PublicKeys
         | Err e =>
           (length Addresses <> length PublicKeys
            /\ e = MismatchArrayLength (length Addresses) (length PublicKeys))
           \/ (length Addresses = length PublicKeys
               /\ exists (j : nat) pk cause,
                    PublicKeys !! j = Some pk /\ DecodeKey pk = Err cause
                    /\ e = Errorf "couldn't decode public key" cause
                    /\ forall j' pk', (j' < j)%nat -> PublicKeys !! j' = Some pk' ->
                         exists key, DecodeKey pk' = Ok key)
         end).
  { intros Addresses PublicKeys. unfold Roster.FromProto.
    destruct (decide (length Addresses = length PublicKeys)) as [Heq|Hne].
    - destruct (FromProto_loop_outcome PublicKeys Addresses 0
                  {| addrs := make (length Addresses);
                     pubkeys := make (length PublicKeys) |})
        as [(r' & Hrun & Hall)|(j & pk & cause & Hj & Hpk & Hcause & Hbefore & Hrun)];
        [simpl; lia| |].
      + exists (Ok r'). split; [exact Hrun|]. split; [exact Heq|].
        apply Forall_lookup. intros j pk Hpk. apply (Hall j pk); [|exact Hpk].
        apply lookup_lt_Some in Hpk. simpl. lia.
      + eexists. split; [exact Hrun|]. right. split; [exact Heq|].
        exists j, pk, cause. repeat split; try done.
        intros j' pk' Hj'. apply Hbefore. lia.
    - eexists. split; [reflexivity|]. left. split; [exact Hne|reflexivity]. }
  destruct msg as [Addresses PublicKeys| |t].
  - destruct (Hroster Addresses PublicKeys) as (res & Hrun & Hres).
    split; [|split].
    + rewrite Hrun. split; discriminate.
    + rewrite Hrun. discriminate.
    + exists res. split; assumption.
  - split; [|split]; [split; reflexivity|discriminate|reflexivity].
  - split; [|split]; [split; discriminate|discriminate|reflexivity].
Qed.

(** *** The iterators and New *)

Lemma addresses_yielded_from r : forall (fuel : nat) (k : nat),
  (Len r <= k + fuel)%nat ->
  addresses_yielded fuel {| it_index := Z.of_nat k; it_roster := r |}
  = Return (drop k (addrs r)).
Proof.
  induction fuel as [|fuel IH]; intros k Hfuel.
  - simpl. unfold HasNext. simpl.
    destruct (Z.ltb_spec (Z.of_nat k) (Z.of_nat (Len r))) as [?|_]; [lia|].
    rewrite drop_ge by (unfold Len in *; lia). reflexivity.
  - cbn [addresses_yielded]. unfold addressIterator_GetNext, HasNext. simpl.
    destruct (Z.ltb_spec (Z.of_nat k) (Z.of_nat (Len r))) as [Hlt|Hge].
    + rewrite index_lookup, Nat2Z.id by lia.
      destruct (lookup_lt_is_Some_2 (addrs r) k) as [a Ha]; [unfold Len in *; lia|].
      rewrite Ha.
      replace (Z.of_nat k + 1) with (Z.of_nat (S k)) by lia.
      rewrite IH by lia. rewrite (drop_S _ _ _ Ha). reflexivity.
    + rewrite drop_ge by (unfold Len in *; lia). reflexivity.
Qed.

Lemma publicKeys_yielded_from r : forall (fuel : nat) (k : nat),
  (Len r <= length (pubkeys r))%nat ->
  (Len r <= k + fuel)%nat ->
  publicKeys_yielded fuel {| it_index := Z.of_nat k; it_roster := r |}
  = Return (drop k (take (Len r) (pubkeys r))).
Proof.
  intros fuel k Hkeys. revert k.
  induction fuel as [|fuel IH]; intros k Hfuel.
  - simpl. unfold HasNext. simpl.
    destruct (Z.ltb_spec (Z.of_nat k) (Z.of_nat (Len r))) as [?|_]; [lia|].
    rewrite drop_ge by (rewrite length_take; lia). reflexivity.
  - cbn [publicKeys_yielded]. unfold publicKeyIterator_GetNext, HasNext. simpl.
    destruct (Z.ltb_spec (Z.of_nat k) (Z.of_nat (Len r))) as [Hlt|Hge].
    + rewrite index_lookup, Nat2Z.id by lia.
      destruct (lookup_lt_is_Some_2 (pubkeys r) k) as [p Hp]; [lia|].
      rewrite Hp.
      replace (Z.of_nat k + 1) with (Z.of_nat (S k)) by lia.
      rewrite IH by lia.
      rewrite (drop_S (take (Len r) (pubkeys r)) p k);
        [reflexivity|rewrite lookup_take_lt by lia; exact Hp].
    + rewrite drop_ge by (rewrite length_take; lia). reflexivity.
Qed.

Lemma New_fills (a : list (option Address)) (p : list (option PublicKey)) :
  length a = length p ->
  New {| ca_Len := Z.of_nat (length a); ca_addresses := a; ca_publicKeys := p |}
  = Return {| addrs := a; pubkeys := p |}.
Proof.
  intros Hlen. unfold New. simpl.
  destruct (Z.ltb_spec (Z.of_nat (length a)) 0) as [?|_]; [lia|].
  rewrite Nat2Z.id.
  destruct (New_loop_returns a p 0
              {| addrs := make (length a); pubkeys := make (length a) |})
    as [r' Hr'].
  { simpl. unfold make. rewrite length_replicate. lia. }
  rewrite Hr'. f_equal.
  apply New_loop_spec in Hr' as (Hla & Hlp & _ & Hcopy);
    [|unfold paired, make; simpl; rewrite !length_replicate; reflexivity].
  simpl in Hla, Hlp. unfold make in *.
  rewrite length_replicate in Hla. rewrite length_replicate in Hlp.
  apply roster_eq; apply list_eq; intros i; simpl.
  - destruct (a !! i) as [x|] eqn:Hx.
    + destruct (lookup_lt_is_Some_2 p i) as [y Hy];
        [apply lookup_lt_Some in Hx; lia|].
      apply (Hcopy i x y Hx Hy).
    + apply lookup_ge_None in Hx. apply lookup_ge_None. lia.
  - destruct (p !! i) as [y|] eqn:Hy.
    + destruct (lookup_lt_is_Some_2 a i) as [x Hx];
        [apply lookup_lt_Some in Hy; lia|].
      apply (Hcopy i x y Hx Hy).
    + apply lookup_ge_None in Hy. apply lookup_ge_None. lia.
Qed.

(** A well-formed roster handed to [New] as a collective authority comes
    back as it is: its iterators yield its addresses and its keys in order,
    and [New] pairs them up again. *)
Theorem New_of_roster_is_identity r :
  paired r ->
  exists authority,
    roster_as_authority (Len r) r = Return authority
    /\ ca_addresses authority = addrs r
    /\ ca_publicKeys authority = pubkeys r
    /\ New authority = Return r.
Proof.
  intros Hr. unfold roster_as_authority, AddressIterator, PublicKeyIterator.
  change 0 with (Z.of_nat 0).
  rewrite addresses_yielded_from by lia.
  rewrite publicKeys_yielded_from by (rewrite <- ?Hr; unfold Len; lia).
  rewrite !drop_0, take_ge by (rewrite <- Hr; unfold Len; lia).
  eexists. split; [reflexivity|]. simpl. split; [reflexivity|]. split; [reflexivity|].
  unfold Len. rewrite (New_fills (addrs r) (pubkeys r) Hr).
  destruct r; reflexivity.
Qed.

(** With fewer keys than addresses, the iterator of the keys panics before
    its end: it runs up to the number of addresses. *)
Theorem publicKeyIterator_panics_on_short_keys r (fuel : nat) :
  (length (pubkeys r) < Len r)%nat ->
  (length (pubkeys r) < fuel)%nat ->
  publicKeys_yielded fuel (PublicKeyIterator r) = Panic.
Proof.
  intros Hshort Hfuel. unfold PublicKeyIterator. change 0 with (Z.of_nat 0).
  assert (Hgen : forall (n k : nat), (k + n = length (pubkeys r))%nat ->
            forall fuel, (n < fuel)%nat ->
            publicKeys_yielded fuel {| it_index := Z.of_nat k; it_roster := r |}
            = Panic).
  { induction n as [|n IH]; intros k Hk [|f] Hf; try lia;
      cbn [publicKeys_yielded]; unfold publicKeyIterator_GetNext, HasNext; simpl;
      (destruct (Z.ltb_spec (Z.of_nat k) (Z.of_nat (Len r))) as [_|?]; [|lia]);
      rewrite index_lookup, Nat2Z.id by lia.
    - rewrite lookup_ge_None_2 by lia. reflexivity.
    - destruct (lookup_lt_is_Some_2 (pubkeys r) k) as [p Hp]; [lia|].
      rewrite Hp. replace (Z.of_nat k + 1) with (Z.of_nat (S k)) by lia.
      rewrite (IH (S k)) by lia. reflexivity. }
  apply (Hgen (length (pubkeys r)) 0%nat); lia.
Qed.

(** *** Pack *)

Local Abbreviation Pack := (Pack MarshalText PackAny nil_Any).
Local Abbreviation Pack_loop := (Pack_loop MarshalText PackAny).

Lemma Pack_loop_spec r (rest : list (option Address)) :
  forall (i : nat) (A A' : list (list byte)) (P P' : list Any),
    Pack_loop i rest r A P = Return (Ok (A', P')) ->
    length A' = length A /\ length P' = length P
    /\ (forall j : nat, (j < i)%nat -> A' !! j = A !! j /\ P' !! j = P !! j)
    /\ (forall (j : nat) a, rest !! j = Some a ->
          (i + j < length A)%nat -> (i + j < length P)%nat ->
          exists addr text p any,
            a = Some addr /\ MarshalText addr = Ok text
            /\ A' !! (i + j)%nat = Some text
            /\ pubkeys r !! (i + j)%nat = Some p /\ PackAny p = Ok any
            /\ P' !! (i + j)%nat = Some any).
Proof.
  induction rest as [|a rest IH]; intros i A A' P P' Hrun; simpl in Hrun.
  - inversion Hrun; subst. repeat split; try done.
  - destruct a as [addr|]; [|discriminate].
    destruct (MarshalText addr) as [text|e] eqn:Htext; [|discriminate].
    destruct (pubkeys r !! i) as [p|] eqn:Hp; [|discriminate].
    destruct (PackAny p) as [any|e] eqn:Hany; [|discriminate].
    apply IH in Hrun as (HlA & HlP & Hbefore & Hafter).
    rewrite length_insert in HlA. rewrite length_insert in HlP.
    setoid_rewrite length_insert in Hafter.
    split; [exact HlA|]. split; [exact HlP|]. split.
    + intros j Hj. destruct (Hbefore j) as [H1 H2]; [lia|].
      rewrite H1, H2, !list_lookup_insert_ne by lia. done.
    + intros [|j] a Hj HjA HjP; simpl in Hj.
      * inversion Hj; subst a. rewrite Nat.add_0_r in *.
        destruct (Hbefore i) as [H1 H2]; [lia|].
        exists addr, text, p, any.
        rewrite H1, H2, !list_lookup_insert_eq by lia. done.
      * replace (i + S j)%nat with (S i + j)%nat by lia.
        apply Hafter; [done|simpl; lia|simpl; lia].
Qed.

Lemma Pack_loop_returns r (rest : list (option Address)) :
  forall (i : nat) (A : list (list byte)) (P : list Any),
    Forall (fun a => exists addr text, a = Some addr /\ MarshalText addr = Ok text) rest ->
    (forall j : nat, (j < length rest)%nat ->
       exists p any, pubkeys r !! (i + j)%nat = Some p /\ PackAny p = Ok any) ->
    exists A' P', Pack_loop i rest r A P = Return (Ok (A', P')).
Proof.
  induction rest as [|a rest IH]; intros i A P Haddrs Hkeys; simpl; [eauto|].
  apply Forall_cons in Haddrs as [(addr & text & -> & Htext) Haddrs].
  destruct (Hkeys 0%nat) as (p & any & Hp & Hany); [simpl; lia|].
  rewrite Nat.add_0_r in Hp. rewrite Htext, Hp, Hany.
  apply IH; [exact Haddrs|]. intros j Hj.
  replace (S i + j)%nat with (i + S j)%nat by lia. apply Hkeys. simpl. lia.
Qed.

(** Packing then decoding gives the roster back.  For a well-formed roster
    and codecs that decode what they encode, the message [Pack] returns is
    decoded by [FromProto] to the same roster; and [Pack] does return a
    message, with one text and one packed key per participant, when every
    address marshals and every key packs. *)
Theorem Pack_FromProto_round_trip r :
  paired r ->
  (forall addr text, MarshalText addr = Ok text -> FromText text = Some addr) ->
  (forall p any, PackAny p = Ok any -> DecodeKey any = Ok p) ->
  (forall pb, Pack r = Return (Ok pb) ->
     FromProto FromText DecodeKey pb = Return (Ok r))
  /\ (Forall (fun a => exists addr text, a = Some addr /\ MarshalText addr = Ok text)
        (addrs r) ->
      Forall (fun p => exists any, PackAny p = Ok any) (pubkeys r) ->
      exists A P, Pack r = Return (Ok (RosterPb A P))
        /\ length A = Len r /\ length P = Len r).
Proof.
  intros Hr Htext Hany. split.
  - intros pb Hpack. unfold Roster.Pack in Hpack.
    destruct (Roster.Pack_loop _ _ 0 (addrs r) r _ _) as [[[A P]|e]| |] eqn:Hloop;
      try discriminate.
    inversion Hpack; subst pb. clear Hpack.
    apply Pack_loop_spec in Hloop as (HlA & HlP & _ & Hpacked).
    rewrite length_replicate in HlA. rewrite length_replicate in HlP.
    setoid_rewrite length_replicate in Hpacked. simpl in Hpacked.
    unfold Roster.FromProto. rewrite decide_True by congruence.
    destruct (FromProto_loop_returns FromText DecodeKey P A 0%nat
                {| addrs := make (length A); pubkeys := make (length P) |})
      as [r' Hr'].
    { intros j Hj. simpl.
      destruct (lookup_lt_is_Some_2 (addrs r) j) as [a Ha]; [unfold Len in *; lia|].
      destruct (Hpacked j a Ha) as (addr & text & p & any & _ & _ & _ & _ & Hp & HP);
        [lia|lia|]. eauto. }
    rewrite Hr'. do 2 f_equal.
    apply FromProto_loop_spec in Hr' as (Hla & Hlp & _ & Hcopy).
    simpl in Hla, Hlp, Hcopy. unfold make in *.
    rewrite length_replicate in Hla. rewrite length_replicate in Hlp.
    setoid_rewrite length_replicate in Hcopy.
    assert (Hentry : forall i : nat,
               addrs r' !! i = addrs r !! i /\ pubkeys r' !! i = pubkeys r !! i).
    { intros i. destruct (decide (i < Len r)%nat) as [Hi|Hi].
      - destruct (lookup_lt_is_Some_2 (addrs r) i) as [a Ha]; [exact Hi|].
        destruct (Hpacked i a Ha)
          as (addr & text & p & any & -> & Hmarshal & HA & Hp & Hpack & HP);
          [lia|lia|].
        destruct (Hcopy i text HA) as (Haddr & pk & key & Hpk & Hkey & Hpub);
          [lia|lia|].
        rewrite Haddr, Hpub, Ha, Hp, (Htext _ _ Hmarshal).
        rewrite HP in Hpk. inversion Hpk; subst pk.
        rewrite (Hany _ _ Hpack) in Hkey. inversion Hkey; subst key. done.
      - unfold Len in *. rewrite !lookup_ge_None_2; [done|rewrite <- Hr| | |]; lia. }
    apply roster_eq; apply list_eq; intros i; apply Hentry.
  - intros Haddrs Hkeys.
    destruct (Pack_loop_returns r (addrs r) 0 (replicate (Len r) [])
                (replicate (Len r) nil_Any) Haddrs) as (A & P & Hloop).
    { intros j Hj. simpl.
      destruct (lookup_lt_is_Some_2 (pubkeys r) j) as [p Hp]; [rewrite <- Hr; exact Hj|].
      rewrite Forall_lookup in Hkeys. destruct (Hkeys j p Hp) as [any Hany']. eauto. }
    exists A, P. unfold Roster.Pack. rewrite Hloop. split; [reflexivity|].
    apply Pack_loop_spec in Hloop as (HlA & HlP & _).
    rewrite length_replicate in HlA. rewrite length_replicate in HlP. done.
Qed.

(** [Pack] panics on a nil address that follows addresses it could marshal
    with keys it could pack. *)
Theorem Pack_panics_on_nil_address r (n : nat) :
  addrs r !! n = Some None ->
  (forall (j : nat) a, (j < n)%nat -> addrs r !! j = Some a ->
     exists addr text p any,
       a = Some addr /\ MarshalText addr = Ok text
       /\ pubkeys r !! j = Some p /\ PackAny p = Ok any) ->
  Pack r = Panic.
Proof.
  intros Hnil Hbefore. unfold Roster.Pack.
  assert (Hgen : forall (rest : list (option Address)) (m i : nat) A P,
            rest !! m = Some None ->
            (forall (j : nat) a, (j < m)%nat -> rest !! j = Some a ->
               exists addr text p any,
                 a = Some addr /\ MarshalText addr = Ok text
                 /\ pubkeys r !! (i + j)%nat = Some p /\ PackAny p = Ok any) ->
            Pack_loop i rest r A P = Panic).
  { induction rest as [|a rest IH]; intros m i A P Hm Hb; [discriminate|].
    destruct m as [|m]; simpl in Hm.
    - inversion Hm; subst a. reflexivity.
    - destruct (Hb 0%nat a) as (addr & text & p & any & -> & Htext' & Hp & Hany');
        [lia|reflexivity|].
      simpl. rewrite Nat.add_0_r in Hp. rewrite Htext', Hp, Hany'.
      apply (IH m); [exact Hm|].
      intros j a Hj Ha. replace (S i + j)%nat with (i + S j)%nat by lia.
      apply Hb; [lia|exact Ha]. }
  rewrite (Hgen (addrs r) n 0%nat); [reflexivity|exact Hnil|exact Hbefore].
Qed.

End RosterMore.

(** [Sample.two] taken at an index it does not have. *)
Lemma Take_panics_out_of_range_witness :
  Roster.paired Sample.two /\ Roster.Take Sample.two [1; 2] = Panic.
Proof.
  split; [reflexivity|].
  apply Take_panics_out_of_range; [reflexivity|].
  right. left. right. vm_compute. discriminate.
Defined.

(** [Sample.two] taken at its indices 0 and 1. *)
Lemma Take_all_is_identity_witness :
  Roster.paired Sample.two /\ Roster.Take Sample.two [0; 1] = Return Sample.two.
Proof.
  split; [reflexivity|].
  apply (Take_all_is_identity Sample.two). reflexivity.
Defined.

(** The entries 1, 0, 1 of [Sample.two], then the entries 2 and 0 of those:
    the entries 1 and 1 of [Sample.two]. *)
Lemma Take_of_Take_witness :
  exists r1 r2 ks,
    Roster.Take Sample.two [1; 0; 1] = Return r1
    /\ Roster.Take r1 [2; 0] = Return r2
    /\ ks = [1; 1] /\ Roster.Take Sample.two ks = Return r2.
Proof.
  eexists _, _, _. split; [reflexivity|]. split; [reflexivity|].
  destruct (Take_of_Take Sample.two [1; 0; 1] [2; 0] _ _ eq_refl eq_refl)
    as (ks & Hks & Htake).
  inversion Hks; subst ks. split; [reflexivity|exact Htake].
Defined.

(** The key of address 20 in [Sample.two] is the one at index 1. *)
Lemma GetPublicKey_sound_witness :
  Roster.GetPublicKey Nat.eqb Sample.two 20%nat = Return (Some 2%nat, 1)
  /\ Roster.pubkeys Sample.two !! 1%nat = Some (Some 2%nat).
Proof.
  assert (Hrun : Roster.GetPublicKey Nat.eqb Sample.two 20%nat
                 = Return (Some 2%nat, 1)) by reflexivity.
  split; [exact Hrun|].
  destruct (GetPublicKey_sound Nat.eqb Sample.two 20%nat _ _ Hrun)
    as [(Hz & _)|(n & addr & Hz & _ & _ & _ & Hp & _)]; [discriminate|].
  assert (n = 1%nat) as -> by lia. exact Hp.
Defined.

(** [Sample.two] seen through its iterators and made again by [New]. *)
Lemma New_of_roster_is_identity_witness :
  Roster.paired Sample.two
  /\ exists authority,
       Roster.roster_as_authority 2 Sample.two = Return authority
       /\ Roster.New authority = Return Sample.two.
Proof.
  split; [reflexivity|].
  destruct (New_of_roster_is_identity Sample.two) as (authority & Has & _ & _ & Hnew);
    [reflexivity|].
  exists authority. split; assumption.
Defined.

(** The key iterator of a roster of two addresses and one key. *)
Lemma publicKeyIterator_panics_on_short_keys_witness :
  Roster.publicKeys_yielded 2
    (Roster.PublicKeyIterator Sample.short_of_keys) = Panic.
Proof.
  apply publicKeyIterator_panics_on_short_keys; vm_compute; lia.
Defined.

(** [Sample.two] packed and decoded with the sample codecs. *)
Lemma Pack_FromProto_round_trip_witness :
  Roster.paired Sample.two
  /\ exists pb,
       Roster.Pack Sample.MarshalText Sample.PackAny 0%nat Sample.two = Return (Ok pb)
       /\ Roster.FromProto Sample.FromText Sample.FromProto pb = Return (Ok Sample.two).
Proof.
  split; [reflexivity|].
  destruct (Pack_FromProto_round_trip Sample.FromText Sample.FromProto
              Sample.MarshalText Sample.PackAny 0%nat Sample.two)
    as [Hback _].
  - reflexivity.
  - intros addr text Htext. inversion Htext; subst text.
    unfold Sample.FromText. rewrite length_replicate. reflexivity.
  - intros [[|p]|] any Hany; inversion Hany; subst any. reflexivity.
  - eexists. split; [reflexivity|]. apply Hback. reflexivity.
Defined.

(** A roster whose second address is nil cannot be packed. *)
Lemma Pack_panics_on_nil_address_witness :
  Roster.Pack Sample.MarshalText Sample.PackAny 0%nat Sample.with_nil_address = Panic.
Proof.
  apply (Pack_panics_on_nil_address Sample.MarshalText Sample.PackAny 0%nat
           Sample.with_nil_address 1%nat); [reflexivity|].
  intros [|j] a Hj Ha; [|lia]. inversion Ha; subst a.
  exists 10%nat, (replicate 10 x01), (Some 1%nat), 1%nat. repeat split.
Defined.

(** ** More on the processor *)

Section ProcessorMore.
Import Processor.

Context {Address Block BlockLink Signature Authority Genesis : Type}.
Context {Tree Snapshot StateMachine : Type}.
Context {pbft : @PBFT Address Block BlockLink Signature Genesis Tree StateMachine}.
Context {hashtree : @Hashtree Tree Snapshot}.
Context {types : @Types Block BlockLink Signature Authority Genesis}.

Local Abbreviation processor := (@processor BlockLink Genesis Tree StateMachine).
Local Abbreviation Message := (@Message Block Signature Genesis).
Local Abbreviation Request := (@Request Address Block Signature Genesis).

Implicit Types (h : processor) (msg : Message) (from : Address).
Implicit Types (watch : list BlockLink) (block : Block) (req : Request).

(** *** The two handlers *)

(** Each handler refuses the messages of the other: [Process] a block or a
    commit message, [Invoke] a genesis, done or view message, with the
    unsupported error and without a change of the state. *)
Theorem handlers_refuse_each_other h from msg watch :
  recognized msg = true ->
  let unsupported {A} : outcome (result A) :=
    Return (Err (UnsupportedMessage (type_of msg))) in
  match msg with
  | BlockMessage _ | CommitMessage _ _ =>
    Process h {| req_Address := from; req_Message := msg |} = (unsupported, h)
  | _ => Invoke h from msg watch = (unsupported, h)
  end.
Proof. destruct msg; intros Hknown; try discriminate; reflexivity. Qed.

Lemma catch_up_more watch : forall h more h',
  catch_up h watch = (true, h') ->
  catch_up h (watch ++ more) = (true, h').
Proof.
  induction watch as [|l watch IH]; intros h more h' Hrun; simpl in *.
  - discriminate.
  - destruct (sync h <=? GetIndex (GetBlock l))%N; [exact Hrun|].
    apply IH. exact Hrun.
Qed.

(** Once [Invoke] has returned, the links delivered later do not matter:
    with more links in the channel the reply and the state are the same.
    In particular a replica that is not behind never reads the channel. *)
Theorem Invoke_ignores_later_links h from msg watch more :
  (Invoke h from msg watch).1 <> Blocked ->
  Invoke h from msg (watch ++ more) = Invoke h from msg watch.
Proof.
  destruct msg; try reflexivity. unfold Invoke.
  destruct (blocks_Len h <? sync h)%N; [|reflexivity].
  destruct (catch_up h watch) as [[|] h'] eqn:Hwait.
  - intros _. rewrite (catch_up_more watch h more h' Hwait). reflexivity.
  - simpl. intros Hblocked. contradiction.
Qed.

(** A replica that is not behind calls [Prepare] at once, in the state it
    is in, whatever the channel delivers. *)
Theorem Invoke_does_not_wait_when_up_to_date h from block watch :
  (sync h <= blocks_Len h)%N ->
  Invoke h from (BlockMessage block) watch = prepare_reply (pbft_Prepare h block).
Proof.
  intros Hup. unfold Invoke.
  destruct (N.ltb_spec (blocks_Len h) (sync h)) as [?|_]; [lia|].
  unfold prepare_reply. destruct (pbft_Prepare h block) as [[digest|e] h']; reflexivity.
Qed.

(** *** The genesis *)

(** Once a genesis is set, no genesis message changes anything: whatever
    the genesis blocks they carry, valid or not, each one is answered
    without an error and the state stays as it is. *)
Theorem genesis_is_never_replaced h (reqs : list Request) :
  genesis h <> None ->
  Forall genesis_request reqs ->
  serve h reqs = (replicate (length reqs) (Return (Ok None)), h).
Proof.
  intros Hset. induction 1 as [|req reqs Hreq _ IH]; simpl; [reflexivity|].
  unfold Process at 1. unfold genesis_request in Hreq.
  destruct (req_Message req); try contradiction.
  destruct (genesis h) as [g0|]; [|contradiction]. simpl.
  rewrite IH. reflexivity.
Qed.

(** [storeGenesis] returns no error exactly when the slot is empty, the
    barrier open, the roster serializes, the tree stages and commits, the
    genesis is created and the expected root, if one is given, is the root
    of the staged tree; the state is then the bootstrapped one.  For
    [Process], a genesis message is stored only if the root it declares is
    the root of the staged tree. *)
Theorem storeGenesis_success h (roster : Authority) (match_ : option Digest) h' :
  (storeGenesis h roster match_ = (Return None, h') <->
   genesis h = None /\ started h = false
   /\ exists value staged g committed,
        Serialize roster = Ok value
        /\ Tree_Stage (tree h) (fun snap => Snapshot_Set snap keyRoster value) = Ok staged
        /\ (match_ = None \/ match_ = Some (copy_Digest (Tree_GetRoot staged)))
        /\ NewGenesis roster (copy_Digest (Tree_GetRoot staged)) = Ok g
        /\ Tree_Commit staged = Ok committed
        /\ h' = bootstrap h committed g)
  /\ (forall from (msg : Genesis),
        genesis h = None ->
        Process h {| req_Address := from; req_Message := GenesisMessage msg |}
        = (Return (Ok None), h') ->
        exists value staged,
          Serialize (GetRoster msg) = Ok value
          /\ Tree_Stage (tree h) (fun snap => Snapshot_Set snap keyRoster value)
             = Ok staged
          /\ GetRoot msg = copy_Digest (Tree_GetRoot staged)
          /\ genesis h' <> None /\ started h' = true).
Proof.
  assert (Hiff : forall roster match_ h',
    storeGenesis h roster match_ = (Return None, h') ->
    genesis h = None /\ started h = false
    /\ exists value staged g committed,
         Serialize roster = Ok value
         /\ Tree_Stage (tree h) (fun snap => Snapshot_Set snap keyRoster value) = Ok staged
         /\ (match_ = None \/ match_ = Some (copy_Digest (Tree_GetRoot staged)))
         /\ NewGenesis roster (copy_Digest (Tree_GetRoot staged)) = Ok g
         /\ Tree_Commit staged = Ok committed
         /\ h' = bootstrap h committed g).
  { clear. intros roster match_ h' Hrun.
    apply storeGenesis_cases in Hrun
      as [[_ [e [=]]]|(value & staged & g & committed & Hvalue & Hstaged & Hroot & Hg
                  & Hcommitted & [(_ & [=] & _)|[(_ & _ & [=] & _)|(Hslot & Hopen & _ & ->)]])].
    apply root_mismatch_None in Hroot.
    split; [exact Hslot|]. split; [exact Hopen|].
    exists value, staged, g, committed. done. }
  split; [split|].
  - apply Hiff.
  - intros (Hslot & Hopen & value & staged & g & committed & Hvalue & Hstaged
            & Hroot & Hg & Hcommitted & ->).
    apply root_mismatch_None in Hroot.
    unfold storeGenesis. rewrite Hvalue, Hstaged. simpl. rewrite Hroot, Hg, Hcommitted.
    simpl. rewrite Hslot. simpl. unfold close_started. simpl. rewrite Hopen.
    reflexivity.
  - intros from msg Hslot Hrun. unfold Process in Hrun. simpl in Hrun.
    rewrite Hslot in Hrun. simpl in Hrun.
    destruct (storeGenesis h (GetRoster msg) (Some (GetRoot msg)))
      as [[[e|]| |] h1] eqn:Hstore; inversion Hrun; subst h1.
    apply Hiff in Hstore
      as (_ & _ & value & staged & g & committed & Hvalue & Hstaged & Hroot & _ & _ & ->).
    exists value, staged. destruct Hroot as [?|[= Hroot]]; [discriminate|].
    repeat split; try done.
Qed.

(** [storeGenesis] never closes the barrier twice: on a processor whose
    barrier is closed only if a genesis is set, it returns (with an error or
    without) and leaves such a processor; so does every genesis message
    served by [Process]. *)
Theorem barrier_closed_at_most_once h :
  barrier_invariant h ->
  (forall (roster : Authority) (match_ : option Digest) o h',
     storeGenesis h roster match_ = (o, h') ->
     (exists e, o = Return e) /\ barrier_invariant h')
  /\ (forall (reqs : list Request) os h',
        Forall genesis_request reqs ->
        serve h reqs = (os, h') ->
        Forall (fun o => exists r, o = Return r) os /\ barrier_invariant h').
Proof.
  assert (Hstore : forall h, barrier_invariant h ->
    forall (roster : Authority) (match_ : option Digest) o h',
      storeGenesis h roster match_ = (o, h') ->
      (exists e, o = Return e) /\ barrier_invariant h').
  { clear h. intros h Hinv roster match_ o h' Hrun.
    apply storeGenesis_cases in Hrun
      as [[-> [e ->]]|(value & staged & g & committed & _ & _ & _ & _
                  & _ & [(Hslot & -> & ->)|[(Hslot & Hclosed & _ & _)|(_ & _ & -> & ->)]])].
    - split; [eauto|exact Hinv].
    - split; [eauto|]. intros _. exact Hslot.
    - destruct (Hinv Hclosed Hslot).
    - split; [eauto|]. intros _. discriminate. }
  intros Hinv. split; [apply Hstore; exact Hinv|].
  intros reqs. revert h Hinv.
  induction reqs as [|req reqs IH]; intros h Hinv os h' Hreqs Hrun; simpl in Hrun.
  - inversion Hrun; subst. split; [constructor|exact Hinv].
  - apply Forall_cons in Hreqs as [Hreq Hreqs].
    destruct (Process h req) as [o h1] eqn:Hfirst.
    destruct (serve h1 reqs) as [os1 h2] eqn:Hrest.
    inversion Hrun; subst os h'.
    assert (Hstep : (exists r, o = Return r) /\ barrier_invariant h1).
    { unfold Process in Hfirst. unfold genesis_request in Hreq.
      destruct (req_Message req) as [| |msg| | |]; try contradiction.
      destruct (genesis_Exists (genesis h)).
      - inversion Hfirst; subst. split; [eauto|exact Hinv].
      - destruct (storeGenesis h (GetRoster msg) (Some (GetRoot msg)))
          as [o' h''] eqn:Hs.
        destruct (Hstore h Hinv _ _ _ _ Hs) as [[e ->] Hinv'].
        destruct e; inversion Hfirst; subst; split; eauto. }
    destruct Hstep as [Ho Hinv1].
    destruct (IH h1 Hinv1 os1 h2 Hreqs Hrest) as [Hos Hinv2].
    split; [constructor; assumption|exact Hinv2].
Qed.

(** [storeGenesis] leaves the state machine, the synchronizer and the block
    store alone, and notifies at most one event, of index 0, only when it
    fills the genesis slot. *)
Theorem storeGenesis_frame h (roster : Authority) (match_ : option Digest) o h' :
  storeGenesis h roster match_ = (o, h') ->
  pbftsm h' = pbftsm h /\ sync h' = sync h /\ blocks h' = blocks h
  /\ (watcher h' = watcher h /\ genesis h' = genesis h
      \/ watcher h' = watcher h ++ [{| Index := 0 |}]
         /\ genesis h = None /\ genesis h' <> None).
Proof.
  intros Hrun.
  apply storeGenesis_cases in Hrun
    as [[-> _]|(value & staged & g & committed & _ & _ & _ & _
                & _ & [(_ & _ & ->)|[(Hslot & _ & _ & ->)|(Hslot & _ & _ & ->)]])];
    simpl; (split; [reflexivity|]); (split; [reflexivity|]); (split; [reflexivity|]).
  - left. split; reflexivity.
  - left. split; reflexivity.
  - right. split; [reflexivity|]. split; [exact Hslot|discriminate].
  - right. split; [reflexivity|]. split; [exact Hslot|discriminate].
Qed.

(** A second genesis that is refused because one is set still replaces the
    roster: the cache holds the tree staged for it, so that, with a tree
    that reads back what was committed and a factory that decodes what a
    roster serializes to, [getCurrentRoster] returns the refused roster
    while the genesis slot keeps the first one. *)
Theorem refused_genesis_replaces_roster h h' (roster : Authority)
    (match_ : option Digest) cause :
  tree_contract ->
  roster_codec_contract ->
  storeGenesis h roster match_ = (Return (Some (Errorf "set genesis failed" cause)), h') ->
  genesis h' = genesis h /\ genesis h <> None
  /\ getCurrentRoster h' = Ok roster.
Proof.
  intros Htree Hcodec Hrun. unfold storeGenesis in Hrun.
  destruct (Serialize roster) as [value|e] eqn:Hvalue; [|inversion Hrun].
  destruct (Tree_Stage (tree h) _) as [staged|e] eqn:Hstaged; [|inversion Hrun].
  destruct (root_mismatch match_ _) as [e|] eqn:Hroot.
  { unfold root_mismatch in Hroot. destruct match_ as [expected|]; [|discriminate].
    destruct (decide _); [discriminate|]. inversion Hroot; subst e. inversion Hrun. }
  destruct (NewGenesis roster _) as [g|e]; [|inversion Hrun].
  destruct (Tree_Commit staged) as [committed|e] eqn:Hcommitted; [|inversion Hrun].
  simpl in Hrun. destruct (genesis h) as [g0|] eqn:Hslot; simpl in Hrun.
  - inversion Hrun; subst h'. simpl. rewrite ?Hslot.
    split; [reflexivity|]. split; [discriminate|].
    unfold getCurrentRoster, readRoster. simpl.
    rewrite (Htree _ _ _ _ _ Hstaged Hcommitted), (Hcodec _ _ Hvalue). reflexivity.
  - unfold close_started in Hrun. simpl in Hrun. destruct (started h); inversion Hrun.
Qed.

(** The root [storeGenesis] compares and stores is an array of 32 bytes:
    byte [i] of the root of the staged tree where it has one, zero beyond;
    a root of 32 bytes is taken as it is. *)
Theorem copy_Digest_is_32_bytes (src : list byte) :
  length (copy_Digest src) = 32%nat
  /\ (forall i : nat, (i < 32)%nat ->
        (copy_Digest src : list byte) !! i = Some (default x00 (src !! i)))
  /\ (length src = 32%nat -> copy_Digest src = src).
Proof.
  unfold copy_Digest. split; [|split].
  - rewrite length_take, length_app, length_replicate. lia.
  - intros i Hi. rewrite lookup_take_lt by exact Hi.
    destruct (decide (i < length src)%nat) as [Hin|Hout].
    + rewrite lookup_app_l by exact Hin.
      destruct (lookup_lt_is_Some_2 src i Hin) as [b ->]. reflexivity.
    + rewrite lookup_app_r by lia.
      rewrite (lookup_ge_None_2 src i) by lia.
      rewrite lookup_replicate_2 by lia. reflexivity.
  - intros Hlen. rewrite take_app_length' by (symmetry; exact Hlen). reflexivity.
Qed.

End ProcessorMore.

(** ** The JSON formats *)

Section JsonFacts.
Import Json.

Context {types_SkipBlock Payload Chain Data HashFactory : Type}.
Variable GetIndex : types_SkipBlock -> N.
Variable GenesisID : types_SkipBlock -> list byte.
Variable BackLink : types_SkipBlock -> list byte.
Variable Payload_of : types_SkipBlock -> Payload.
Variable zero_SkipBlock : types_SkipBlock.
Variable NewSkipBlock :
  Payload -> list (@SkipBlockOption HashFactory) -> result types_SkipBlock.
Variable Payload_Serialize : Payload -> result (list byte).
Variable Chain_Serialize : Chain -> result (list byte).
Variable Data_Serialize : Data -> result (list byte).
Variable Marshal_SkipBlock : SkipBlock -> result (list byte).
Variable Unmarshal_SkipBlock : list byte -> result SkipBlock.
Variable Marshal_VerifiableBlock : VerifiableBlock -> result (list byte).
Variable Unmarshal_VerifiableBlock : list byte -> result VerifiableBlock.
Variable Marshal_Blueprint : Blueprint -> result (list byte).
Variable Unmarshal_Blueprint : list byte -> result Blueprint.
Variable Marshal_Request : Request -> result (list byte).
Variable Unmarshal_Request : list byte -> result Request.
Variable GetFactory_Payload : option (list byte -> result (@deserialized Payload)).
Variable GetFactory_Chain : (list byte -> result Chain) + string.
Variable GetFactory_Data : option (list byte -> result Data).

Local Abbreviation Message := (@Message types_SkipBlock Chain Data).
Local Abbreviation FormatEngine := (@FormatEngine types_SkipBlock Chain Data).
Local Abbreviation blockFormat := (@blockFormat HashFactory).
Local Abbreviation verifiableFormat := (@verifiableFormat types_SkipBlock Chain Data).
Local Abbreviation requestFormat := (@requestFormat types_SkipBlock Chain Data).
Local Abbreviation blockFormat_Encode :=
  (blockFormat_Encode (Chain := Chain) (Data := Data) GetIndex GenesisID BackLink
     Payload_of Payload_Serialize Marshal_SkipBlock).
Local Abbreviation blockFormat_Decode :=
  (blockFormat_Decode (Chain := Chain) (Data := Data) NewSkipBlock
     Unmarshal_SkipBlock GetFactory_Payload).
Local Abbreviation verifiableFormat_Encode :=
  (verifiableFormat_Encode Chain_Serialize Marshal_VerifiableBlock).
Local Abbreviation verifiableFormat_Decode :=
  (verifiableFormat_Decode zero_SkipBlock Unmarshal_VerifiableBlock GetFactory_Chain).
Local Abbreviation blueprintFormat_Encode :=
  (blueprintFormat_Encode (types_SkipBlock := types_SkipBlock) (Chain := Chain)
     Data_Serialize Marshal_Blueprint).
Local Abbreviation blueprintFormat_Decode :=
  (blueprintFormat_Decode (types_SkipBlock := types_SkipBlock) (Chain := Chain)
     Unmarshal_Blueprint GetFactory_Data).
Local Abbreviation requestFormat_Encode := (requestFormat_Encode Marshal_Request).
Local Abbreviation requestFormat_Decode := (requestFormat_Decode Unmarshal_Request).
Local Abbreviation newRequestFormat :=
  (newRequestFormat (Chain := Chain) (Data := Data) GetIndex GenesisID BackLink
     Payload_of NewSkipBlock Payload_Serialize Marshal_SkipBlock Unmarshal_SkipBlock
     GetFactory_Payload).

Implicit Types (msg : Message) (data : list byte) (block : types_SkipBlock).

(** The options [Decode] gives to the constructor for a block. *)
Local Abbreviation options_of block :=
  [WithIndex (HashFactory := HashFactory) (GetIndex block);
   WithGenesisID (GenesisID block); WithBackLink (BackLink block)].

(** *** blockFormat *)

Lemma blockFormat_Decode_Encode (f f' : blockFormat) block data factory :
  (forall m bytes, Marshal_SkipBlock m = Ok bytes -> Unmarshal_SkipBlock bytes = Ok m) ->
  GetFactory_Payload = Some factory ->
  (forall payload bytes,
     Payload_Serialize payload = Ok bytes -> factory bytes = Ok (IsPayload payload)) ->
  blockFormat_Encode f (SkipBlockMsg block) = Ok data ->
  blockFormat_Decode f' data
  = match NewSkipBlock (Payload_of block)
            match hashFactory f' with
            | Some hf => options_of block ++ [WithHashFactory hf]
            | None => options_of block
            end with
    | Ok b => Ok (SkipBlockMsg b)
    | Err e => Err (Errorf "couldn't create block" e)
    end.
Proof.
  intros Hjson Hfactory Hpayload Hencode.
  unfold Json.blockFormat_Encode in Hencode.
  destruct (Payload_Serialize (Payload_of block)) as [payload|e] eqn:Hser;
    [|discriminate].
  destruct (Marshal_SkipBlock _) as [bytes|e] eqn:Hmarshal; [|discriminate].
  inversion Hencode; subst bytes.
  unfold Json.blockFormat_Decode.
  rewrite (Hjson _ _ Hmarshal), Hfactory. simpl.
  rewrite (Hpayload _ _ Hser). reflexivity.
Qed.


(** *** The factories *)

(** Decoding needs the factories of the context.  Without a payload factory
    no block is decoded and without a data factory no blueprint; when the
    chain factory is not a chain factory, the verifiable format returns nil
    and an error without a call to the block engine. *)
Theorem decoding_needs_the_factories :
  (GetFactory_Payload = None ->
   forall (f : blockFormat) data, is_Err (blockFormat_Decode f data))
  /\ (GetFactory_Data = None ->
      forall data, is_Err (blueprintFormat_Decode data))
  /\ (forall t, GetFactory_Chain = inr t ->
      forall (f : verifiableFormat) data,
      exists e, verifiableFormat_Decode f data = Return (None, Some e)).
Proof.
  split; [|split].
  - intros Hnone f data. unfold Json.blockFormat_Decode. rewrite Hnone.
    destruct (Unmarshal_SkipBlock data); exact I.
  - intros Hnone data. unfold Json.blueprintFormat_Decode. rewrite Hnone.
    destruct (Unmarshal_Blueprint data); exact I.
  - intros t Hother f data. unfold Json.verifiableFormat_Decode, decodeChain.
    rewrite Hother.
    destruct (Unmarshal_VerifiableBlock data); eauto.
Qed.

(** *** verifiableFormat *)

(** A verifiable block encoded then decoded comes back, with an engine that
    decodes the blocks it encodes and a chain factory that decodes the
    chains that are serialized. *)
Theorem verifiableFormat_round_trip (f : verifiableFormat) block (chain : Chain)
    data ChainOf :
  (forall m bytes,
     Marshal_VerifiableBlock m = Ok bytes -> Unmarshal_VerifiableBlock bytes = Ok m) ->
  GetFactory_Chain = inl ChainOf ->
  (forall c bytes, Chain_Serialize c = Ok bytes -> ChainOf bytes = Ok c) ->
  (forall b bytes,
     Encode (verifiable_blockFormat f) (SkipBlockMsg b) = Ok bytes ->
     Decode (verifiable_blockFormat f) bytes = Ok (SkipBlockMsg b)) ->
  verifiableFormat_Encode f (VerifiableBlockMsg block chain) = Ok data ->
  verifiableFormat_Decode f data = Return (Some (VerifiableBlockMsg block chain), None).
Proof.
  intros Hjson Hfactory Hchain Hengine Hencode.
  unfold Json.verifiableFormat_Encode in Hencode.
  destruct (Encode _ (SkipBlockMsg block)) as [block_|e] eqn:Hblock; [|discriminate].
  destruct (Chain_Serialize chain) as [chain_|e] eqn:Hser; [|discriminate].
  destruct (Marshal_VerifiableBlock _) as [bytes|e] eqn:Hmarshal; [|discriminate].
  inversion Hencode; subst bytes.
  unfold Json.verifiableFormat_Decode, decodeChain.
  rewrite (Hjson _ _ Hmarshal), Hfactory. simpl.
  rewrite (Hchain _ _ Hser), (Hengine _ _ Hblock). reflexivity.
Qed.

(** What [Decode] of the verifiable format returns: without an error, a
    verifiable block; with an error, nil, except when the block does not
    decode: the message is then an empty block, not nil. *)
Theorem verifiableFormat_Decode_pair (f : verifiableFormat) data
    (m : option Message) (e : option error) :
  verifiableFormat_Decode f data = Return (m, e) ->
  match e with
  | None => exists block chain, m = Some (VerifiableBlockMsg block chain)
  | Some err =>
    (m = None /\ forall cause, err <> Errorf "couldn't deserialize block" cause)
    \/ (m = Some (SkipBlockMsg zero_SkipBlock)
        /\ exists cause, err = Errorf "couldn't deserialize block" cause)
  end.
Proof.
  unfold Json.verifiableFormat_Decode, decodeChain. intros Hrun.
  destruct (Unmarshal_VerifiableBlock data) as [wire|e0].
  - destruct GetFactory_Chain as [ChainOf|t].
    + destruct (ChainOf _) as [chain|e0].
      * destruct (Decode _ _) as [[block| | | | | |]|e0]; inversion Hrun; subst; eauto.
      * inversion Hrun; subst. left. split; [reflexivity|]. discriminate.
    + inversion Hrun; subst. left. split; [reflexivity|]. discriminate.
  - inversion Hrun; subst. left. split; [reflexivity|]. discriminate.
Qed.

(** *** blueprintFormat *)

(** A blueprint encoded then decoded comes back, with a data factory that
    decodes the data that is serialized. *)
Theorem blueprintFormat_round_trip (bp : @types_Blueprint Data) data factory :
  (forall m bytes, Marshal_Blueprint m = Ok bytes -> Unmarshal_Blueprint bytes = Ok m) ->
  GetFactory_Data = Some factory ->
  (forall d bytes, Data_Serialize d = Ok bytes -> factory bytes = Ok d) ->
  blueprintFormat_Encode (BlueprintMsg bp) = Ok data ->
  blueprintFormat_Decode data = Ok (BlueprintMsg bp).
Proof.
  intros Hjson Hfactory Hdata Hencode.
  unfold Json.blueprintFormat_Encode in Hencode.
  destruct (Data_Serialize (bp_data bp)) as [payload|e] eqn:Hser; [|discriminate].
  destruct (Marshal_Blueprint _) as [bytes|e] eqn:Hmarshal; [|discriminate].
  inversion Hencode; subst bytes.
  unfold Json.blueprintFormat_Decode.
  rewrite (Hjson _ _ Hmarshal), Hfactory. simpl.
  rewrite (Hdata _ _ Hser). destruct bp; reflexivity.
Qed.

(** *** requestFormat *)

Lemma requestFormat_Decode_Encode (f : requestFormat) msg data :
  (forall m bytes, Marshal_Request m = Ok bytes -> Unmarshal_Request bytes = Ok m) ->
  (forall b bytes,
     Encode (request_blockFormat f) (SkipBlockMsg b) = Ok bytes ->
     Decode (request_blockFormat f) bytes = Ok (SkipBlockMsg b)) ->
  requestFormat_Encode f msg = Ok data ->
  requestFormat_Decode f data = Return (Ok msg)
  /\ exists m, Unmarshal_Request data = Ok m /\ one_field m.
Proof.
  intros Hjson Hengine Hencode. unfold Json.requestFormat_Encode in Hencode.
  destruct (requestFormat_request f msg) as [req|e] eqn:Hreq; [|discriminate].
  destruct (Marshal_Request req) as [bytes|e] eqn:Hmarshal; [|discriminate].
  inversion Hencode; subst bytes.
  unfold Json.requestFormat_Decode. rewrite (Hjson _ _ Hmarshal).
  destruct msg as [| | |genesis|from to|response|]; simpl in Hreq; try discriminate.
  - destruct (Encode _ (SkipBlockMsg genesis)) as [bytes|e] eqn:Hblock; [|discriminate].
    inversion Hreq; subst req. simpl. rewrite (Hengine _ _ Hblock).
    split; [reflexivity|]. eexists. split; [reflexivity|exact I].
  - inversion Hreq; subst req. simpl.
    split; [reflexivity|]. eexists. split; [reflexivity|exact I].
  - destruct (Encode _ (SkipBlockMsg response)) as [bytes|e] eqn:Hblock; [|discriminate].
    inversion Hreq; subst req. simpl. rewrite (Hengine _ _ Hblock).
    split; [reflexivity|]. eexists. split; [reflexivity|exact I].
Qed.


(** How [Decode] reads the message on the wire: the genesis to propagate
    first, then the request, then the response, whatever the other fields;
    it answers "message is empty" exactly when the three are nil. *)
Theorem requestFormat_Decode_dispatch (f : requestFormat) data (m : Request) :
  Unmarshal_Request data = Ok m ->
  (requestFormat_Decode f data = Return (Err (Failure "message is empty"))
   <-> Propagate m = None /\ Request_ m = None /\ Response m = None)
  /\ (forall r, Propagate m = None -> Request_ m = Some r ->
        requestFormat_Decode f data = Return (Ok (BlockRequestMsg (From r) (To r))))
  /\ (forall p genesis, Propagate m = Some p ->
        Decode (request_blockFormat f) (Genesis p) = Ok (SkipBlockMsg genesis) ->
        requestFormat_Decode f data = Return (Ok (PropagateGenesisMsg genesis)))
  /\ (forall r block, Propagate m = None -> Request_ m = None -> Response m = Some r ->
        Decode (request_blockFormat f) (Block r) = Ok (SkipBlockMsg block) ->
        requestFormat_Decode f data = Return (Ok (BlockResponseMsg block))).
Proof.
  intros Hwire. unfold Json.requestFormat_Decode. rewrite Hwire.
  split; [|split; [|split]].
  - destruct (Propagate m) as [p|]; [|destruct (Request_ m) as [r|];
                                       [|destruct (Response m) as [r|]]].
    + split; [|intros (? & _); discriminate].
      destruct (Decode _ _) as [[]|]; discriminate.
    + split; [discriminate|intros (_ & ? & _); discriminate].
    + split; [|intros (_ & _ & ?); discriminate].
      destruct (Decode _ _) as [[]|]; discriminate.
    + split; auto.
  - intros r -> ->. reflexivity.
  - intros p genesis -> ->. reflexivity.
  - intros r block -> -> -> ->. reflexivity.
Qed.

(** *** The engines together *)

(** Each engine encodes its own messages only: the block format a block,
    the verifiable format a verifiable block, the blueprint format a
    blueprint and the request format one of the three requests. *)
Theorem engines_encode_their_messages (fb : blockFormat) (fv : verifiableFormat)
    (fr : requestFormat) msg data :
  (blockFormat_Encode fb msg = Ok data -> exists block, msg = SkipBlockMsg block)
  /\ (verifiableFormat_Encode fv msg = Ok data ->
      exists block chain, msg = VerifiableBlockMsg block chain)
  /\ (blueprintFormat_Encode msg = Ok data -> exists bp, msg = BlueprintMsg bp)
  /\ (requestFormat_Encode fr msg = Ok data ->
      (exists genesis, msg = PropagateGenesisMsg genesis)
      \/ (exists from to, msg = BlockRequestMsg from to)
      \/ (exists block, msg = BlockResponseMsg block)).
Proof.
  unfold Json.requestFormat_Encode.
  repeat split; destruct msg; simpl; intros Hencode; try discriminate; eauto.
Qed.

(** The request format as [newRequestFormat] makes it, on the block format
    without hash factory: with a context whose [Unmarshal] reads what
    [Marshal] writes, a payload factory that decodes the payloads that are
    serialized and a constructor that makes a block again from its payload,
    index and identifiers, every request that is encoded is decoded to
    itself. *)
Theorem newRequestFormat_round_trip msg data factory :
  (forall m bytes, Marshal_Request m = Ok bytes -> Unmarshal_Request bytes = Ok m) ->
  (forall m bytes, Marshal_SkipBlock m = Ok bytes -> Unmarshal_SkipBlock bytes = Ok m) ->
  GetFactory_Payload = Some factory ->
  (forall payload bytes,
     Payload_Serialize payload = Ok bytes -> factory bytes = Ok (IsPayload payload)) ->
  (forall block, NewSkipBlock (Payload_of block) (options_of block) = Ok block) ->
  requestFormat_Encode newRequestFormat msg = Ok data ->
  requestFormat_Decode newRequestFormat data = Return (Ok msg).
Proof.
  intros Hrequest Hblock Hfactory Hpayload Hnew Hencode.
  apply (requestFormat_Decode_Encode newRequestFormat msg data Hrequest);
    [|exact Hencode].
  intros b bytes Hb. simpl in *.
  rewrite (blockFormat_Decode_Encode {| hashFactory := None |}
             {| hashFactory := None |} b bytes factory
             Hblock Hfactory Hpayload Hb).
  simpl. rewrite Hnew. reflexivity.
Qed.

End JsonFacts.

(** ** The further properties on the sample instances *)

Section MoreSampleRuns.
Import Processor Sample.

(** A commit message handed to [Process]. *)
Lemma handlers_refuse_each_other_witness :
  recognized commit1 = true
  /\ Process fresh (request commit1)
     = (Return (Err (UnsupportedMessage "types.CommitMessage")), fresh).
Proof.
  split; [reflexivity|].
  apply (handlers_refuse_each_other fresh 7%nat commit1 []). reflexivity.
Defined.

(** The lagging replica once the link 5 is delivered: the links 6 and 7
    change nothing. *)
Lemma Invoke_ignores_later_links_witness :
  (Invoke lagging 7%nat block5 [3; 4; 5]%N).1 <> Blocked
  /\ Invoke lagging 7%nat block5 ([3; 4; 5] ++ [6; 7])%N
     = Invoke lagging 7%nat block5 [3; 4; 5]%N.
Proof.
  assert (Hdone : (Invoke lagging 7%nat block5 [3; 4; 5]%N).1 <> Blocked)
    by (vm_compute; discriminate).
  split; [exact Hdone|].
  apply (Invoke_ignores_later_links lagging 7%nat block5 [3; 4; 5]%N [6; 7]%N Hdone).
Defined.

(** A replica that has heard of nothing beyond its store. *)
Lemma Invoke_does_not_wait_when_up_to_date_witness :
  (sync bootstrapped <= blocks_Len bootstrapped)%N
  /\ Invoke bootstrapped 7%nat (BlockMessage 0%N) [9%N]
     = prepare_reply (pbft_Prepare bootstrapped 0%N).
Proof.
  assert (Hup : (sync bootstrapped <= blocks_Len bootstrapped)%N)
    by (vm_compute; discriminate).
  split; [exact Hup|].
  apply (Invoke_does_not_wait_when_up_to_date bootstrapped 7%nat 0%N [9%N] Hup).
Defined.

(** The bootstrapped processor served the first genesis again, then
    another genesis with a wrong root. *)
Lemma genesis_is_never_replaced_witness :
  genesis bootstrapped <> None
  /\ serve bootstrapped [request (GenesisMessage genesis1);
                         request (GenesisMessage genesis2)]
     = ([Return (Ok None); Return (Ok None)], bootstrapped).
Proof.
  assert (Hset : genesis bootstrapped <> None) by discriminate.
  split; [exact Hset|].
  apply (genesis_is_never_replaced bootstrapped
           [request (GenesisMessage genesis1); request (GenesisMessage genesis2)] Hset).
  repeat constructor.
Defined.

(** [roster1] stored on the fresh processor with its root expected. *)
Lemma storeGenesis_success_witness :
  storeGenesis fresh roster1 (Some root1) = (Return None, bootstrapped)
  /\ genesis fresh = None /\ started fresh = false.
Proof.
  destruct (storeGenesis_success (Address := nat) fresh roster1 (Some root1) bootstrapped)
    as [[Honly Hif] _].
  assert (Hrun : storeGenesis fresh roster1 (Some root1) = (Return None, bootstrapped)).
  { apply Hif. split; [reflexivity|]. split; [reflexivity|].
    exists roster1, [(keyRoster, roster1)], genesis1, [(keyRoster, roster1)].
    repeat split; try reflexivity. right. reflexivity. }
  split; [exact Hrun|].
  destruct (Honly Hrun) as (Hslot & Hopen & _). split; assumption.
Defined.

(** The fresh processor served two genesis messages, the second one with
    a wrong root: both calls return and the barrier is closed once. *)
Lemma barrier_closed_at_most_once_witness :
  barrier_invariant fresh
  /\ exists os h',
       serve fresh [request (GenesisMessage genesis1);
                    request (GenesisMessage genesis2)] = (os, h')
       /\ Forall (fun o => exists r, o = Return r) os
       /\ barrier_invariant h'.
Proof.
  assert (Hinv : barrier_invariant fresh) by (intros Hclosed; discriminate).
  split; [exact Hinv|].
  destruct (barrier_closed_at_most_once fresh Hinv) as [_ Hserve].
  destruct (serve fresh [request (GenesisMessage genesis1);
                         request (GenesisMessage genesis2)]) as [os h'] eqn:Hrun.
  exists os, h'. split; [reflexivity|].
  apply (Hserve [request (GenesisMessage genesis1); request (GenesisMessage genesis2)]
           os h'); [repeat constructor|exact Hrun].
Defined.

(** A second genesis, refused on a bootstrapped processor: the state
    machine, the synchronizer, the blocks and the events are untouched. *)
Lemma storeGenesis_frame_witness :
  exists o h',
    storeGenesis bootstrapped [x05] None = (o, h')
    /\ pbftsm h' = pbftsm bootstrapped /\ blocks h' = blocks bootstrapped
    /\ watcher h' = watcher bootstrapped.
Proof.
  destruct (storeGenesis bootstrapped [x05] None) as [o h'] eqn:Hrun.
  exists o, h'. split; [reflexivity|].
  destruct (storeGenesis_frame bootstrapped [x05] None o h' Hrun)
    as (Hpbft & _ & Hblocks & [[Hwatcher _]|(_ & Hslot & _)]).
  - repeat split; assumption.
  - discriminate.
Defined.

(** The same call: the roster read from the cache is now the refused one. *)
Lemma refused_genesis_replaces_roster_witness :
  exists h',
    storeGenesis bootstrapped [x05] None
    = (Return (Some (Errorf "set genesis failed" (Failure "ALREADY_SET"))), h')
    /\ genesis h' = Some genesis1
    /\ getCurrentRoster bootstrapped = Ok roster1
    /\ getCurrentRoster h' = Ok [x05].
Proof.
  exists (tree_Set bootstrapped [(keyRoster, [x05]); (keyRoster, roster1)]).
  assert (Hrun : storeGenesis bootstrapped [x05] None
                 = (Return (Some (Errorf "set genesis failed" (Failure "ALREADY_SET"))),
                    tree_Set bootstrapped [(keyRoster, [x05]); (keyRoster, roster1)]))
    by reflexivity.
  split; [exact Hrun|].
  destruct (refused_genesis_replaces_roster bootstrapped _ [x05] None _
              sample_tree_contract sample_codec_contract Hrun)
    as (Hslot & _ & Hroster).
  split; [exact Hslot|]. split; [reflexivity|exact Hroster].
Defined.

(** The copy of a root of three bytes. *)
Lemma copy_Digest_is_32_bytes_witness :
  length (copy_Digest roster1) = 32%nat
  /\ (copy_Digest roster1 : list byte) !! 2%nat = Some x03
  /\ (copy_Digest roster1 : list byte) !! 3%nat = Some x00
  /\ copy_Digest (copy_Digest roster1) = copy_Digest roster1.
Proof.
  destruct (copy_Digest_is_32_bytes roster1) as (Hlen & Hbyte & _).
  destruct (copy_Digest_is_32_bytes (copy_Digest roster1)) as (_ & _ & Hsame).
  split; [exact Hlen|]. split; [apply (Hbyte 2%nat); lia|].
  split; [apply (Hbyte 3%nat); lia|]. apply Hsame. exact Hlen.
Defined.

End MoreSampleRuns.

Section JsonSampleRuns.
Import Json JsonSample.

Lemma sample_json_SkipBlock (m : SkipBlock) (bytes : list byte) :
  Marshal_SkipBlock m = Ok bytes -> Unmarshal_SkipBlock bytes = Ok m.
Proof.
  destruct m as [index gid back payload]. unfold Marshal_SkipBlock. simpl.
  destruct (Byte.of_N index) as [i|] eqn:Hi; [|discriminate].
  destruct gid as [|g [|]]; try discriminate.
  destruct back as [|k [|]]; try discriminate.
  intros [= <-]. simpl. apply Byte.to_of_N in Hi. rewrite Hi. reflexivity.
Qed.

Lemma sample_json_VerifiableBlock (m : VerifiableBlock) (bytes : list byte) :
  Marshal_VerifiableBlock m = Ok bytes -> Unmarshal_VerifiableBlock bytes = Ok m.
Proof.
  destruct m as [blk chain]. unfold Marshal_VerifiableBlock. simpl.
  destruct chain as [|c [|]]; try discriminate.
  intros [= <-]. reflexivity.
Qed.

Lemma sample_json_Blueprint (m : Blueprint) (bytes : list byte) :
  Marshal_Blueprint m = Ok bytes -> Unmarshal_Blueprint bytes = Ok m.
Proof.
  destruct m as [index previous payload]. unfold Marshal_Blueprint. simpl.
  destruct (Byte.of_N index) as [i|] eqn:Hi; [|discriminate].
  destruct previous as [|p [|]]; try discriminate.
  intros [= <-]. simpl. apply Byte.to_of_N in Hi. rewrite Hi. reflexivity.
Qed.

Lemma sample_json_Request (m : Request) (bytes : list byte) :
  Marshal_Request m = Ok bytes -> Unmarshal_Request bytes = Ok m.
Proof.
  destruct m as [[[genesis]|] [[from to]|] [[blk]|]]; unfold Marshal_Request; simpl;
    try discriminate.
  - intros [= <-]. reflexivity.
  - destruct (Byte.of_N from) as [f|] eqn:Hf; [|discriminate].
    destruct (Byte.of_N to) as [t|] eqn:Ht; [|discriminate].
    intros [= <-]. simpl.
    apply Byte.to_of_N in Hf, Ht. rewrite Hf, Ht. reflexivity.
  - intros [= <-]. reflexivity.
Qed.

Lemma sample_payload_factory (payload bytes : list byte) :
  Serialize payload = Ok bytes -> payload_factory bytes = Ok (IsPayload payload).
Proof. intros [= <-]. reflexivity. Qed.

Lemma sample_NewSkipBlock (b : block) :
  NewSkipBlock (b_payload b)
    [WithIndex (b_index b); WithGenesisID (GenesisID b); WithBackLink (BackLink b)]
  = Ok b.
Proof. destruct b; reflexivity. Qed.

Lemma sample_block_engine (f : @requestFormat block byte (list byte)) :
  f = request_format ->
  forall (b : block) (bytes : list byte),
    Encode (request_blockFormat f) (SkipBlockMsg b) = Ok bytes ->
    Decode (request_blockFormat f) bytes = Ok (SkipBlockMsg b).
Proof.
  intros -> b bytes Hb. simpl in *.
  rewrite (blockFormat_Decode_Encode b_index GenesisID BackLink b_payload
             NewSkipBlock Serialize Marshal_SkipBlock Unmarshal_SkipBlock
             (Some payload_factory) {| hashFactory := None |}
             {| hashFactory := None |} b bytes payload_factory
             sample_json_SkipBlock eq_refl sample_payload_factory Hb).
  cbn [hashFactory]. rewrite sample_NewSkipBlock. reflexivity.
Qed.


(** A context without payload factory: the bytes of the block 7 are not
    decoded. *)
Lemma decoding_needs_the_factories_witness :
  is_Err (blockFormat_Decode (Chain := byte) (Data := list byte)
            NewSkipBlock Unmarshal_SkipBlock None
            {| hashFactory := None |} [x07; x0a; x0b; x01; x02]).
Proof.
  destruct (decoding_needs_the_factories (Chain := byte) (Data := list byte)
              zero NewSkipBlock Unmarshal_SkipBlock Unmarshal_VerifiableBlock
              Unmarshal_Blueprint None (inl ChainOf) None) as [Hblock _].
  apply (Hblock eq_refl).
Defined.

(** The block 7 with the chain [09], encoded then decoded. *)
Lemma verifiableFormat_round_trip_witness :
  exists data,
    verifiableFormat_Encode Chain_Serialize Marshal_VerifiableBlock
      verifiable_format (VerifiableBlockMsg block7 x09) = Ok data
    /\ verifiableFormat_Decode zero Unmarshal_VerifiableBlock (inl ChainOf)
         verifiable_format data
       = Return (Some (VerifiableBlockMsg block7 x09), None).
Proof.
  eexists. split; [reflexivity|].
  apply (verifiableFormat_round_trip zero Chain_Serialize Marshal_VerifiableBlock
           Unmarshal_VerifiableBlock (inl ChainOf) verifiable_format block7 x09
           _ ChainOf sample_json_VerifiableBlock eq_refl).
  - intros c bytes [= <-]. reflexivity.
  - apply (sample_block_engine request_format eq_refl).
  - reflexivity.
Defined.

(** Bytes that hold a chain and no block: the message returned with the
    error is the empty block. *)
Lemma verifiableFormat_Decode_pair_witness :
  exists cause,
    verifiableFormat_Decode zero Unmarshal_VerifiableBlock (inl ChainOf)
      verifiable_format [x09]
    = Return (Some (SkipBlockMsg zero),
              Some (Errorf "couldn't deserialize block" cause)).
Proof.
  destruct (verifiableFormat_Decode zero Unmarshal_VerifiableBlock (inl ChainOf)
              verifiable_format [x09]) as [[m e]| |] eqn:Hrun; try discriminate.
  pose proof (verifiableFormat_Decode_pair zero Unmarshal_VerifiableBlock
                (inl ChainOf) verifiable_format [x09] m e Hrun) as Hpair.
  vm_compute in Hrun. inversion Hrun; subst m e.
  destruct Hpair as [[[=] _]|[_ [cause Hcause]]].
  eexists. reflexivity.
Defined.

(** The blueprint 3 encoded then decoded. *)
Lemma blueprintFormat_round_trip_witness :
  exists data,
    blueprintFormat_Encode (types_SkipBlock := block) (Chain := byte)
      Serialize Marshal_Blueprint (BlueprintMsg blueprint3) = Ok data
    /\ blueprintFormat_Decode (types_SkipBlock := block) (Chain := byte)
         Unmarshal_Blueprint (Some data_factory) data
       = Ok (BlueprintMsg blueprint3).
Proof.
  eexists. split; [reflexivity|].
  apply (blueprintFormat_round_trip (types_SkipBlock := block) (Chain := byte)
           Serialize Marshal_Blueprint Unmarshal_Blueprint (Some data_factory)
           blueprint3 _ data_factory sample_json_Blueprint eq_refl).
  - intros d bytes [= <-]. reflexivity.
  - reflexivity.
Defined.


(** The same bytes read by [Decode]: a request, not an empty message. *)
Lemma requestFormat_Decode_dispatch_witness :
  requestFormat_Decode Unmarshal_Request request_format [x01; x02; x05]
  = Return (Ok (BlockRequestMsg 2 5)).
Proof.
  destruct (requestFormat_Decode_dispatch Unmarshal_Request request_format
              [x01; x02; x05] _ eq_refl) as (_ & Hrequest & _).
  apply (Hrequest {| From := 2; To := 5 |}); reflexivity.
Defined.

(** A blueprint is encoded by the blueprint format and by no other. *)
Lemma engines_encode_their_messages_witness :
  exists data bp,
    blueprintFormat_Encode (types_SkipBlock := block) (Chain := byte)
      Serialize Marshal_Blueprint (BlueprintMsg blueprint3) = Ok data
    /\ BlueprintMsg blueprint3 = BlueprintMsg (types_SkipBlock := block) (Chain := byte) bp.
Proof.
  destruct (engines_encode_their_messages b_index GenesisID BackLink b_payload
              Serialize Chain_Serialize Serialize Marshal_SkipBlock
              Marshal_VerifiableBlock Marshal_Blueprint Marshal_Request
              {| hashFactory := @None unit |} verifiable_format request_format
              (BlueprintMsg blueprint3) [x03; x0c; x05])
    as (_ & _ & Hblueprint & _).
  destruct (Hblueprint eq_refl) as [bp Hbp].
  exists [x03; x0c; x05], bp. split; [reflexivity|exact Hbp].
Defined.

(** The response that carries the block 7, through the request format as
    it is installed. *)
Lemma newRequestFormat_round_trip_witness :
  exists data,
    requestFormat_Encode Marshal_Request request_format (BlockResponseMsg block7)
    = Ok data
    /\ requestFormat_Decode Unmarshal_Request request_format data
       = Return (Ok (BlockResponseMsg block7)).
Proof.
  eexists. split; [reflexivity|].
  apply (newRequestFormat_round_trip (Chain := byte) (Data := list byte)
           b_index GenesisID BackLink b_payload NewSkipBlock Serialize
           Marshal_SkipBlock Unmarshal_SkipBlock Marshal_Request Unmarshal_Request
           (Some payload_factory) (BlockResponseMsg block7) _ payload_factory
           sample_json_Request sample_json_SkipBlock eq_refl
           sample_payload_factory sample_NewSkipBlock).
  reflexivity.
Defined.

End JsonSampleRuns.

(** ** The commit request on the wire *)

Section RequestsMore.
Import Requests.

Context {Proposal Signature Any : Type}.
Variable MarshalBinary : Signature -> result (list byte).
Variable PackAny_signature : Signature -> result Any.

Local Abbreviation Commit := (@Commit Signature).
Local Abbreviation newCommitRequest := (newCommitRequest MarshalBinary).
Local Abbreviation Commit_Pack := (Commit_Pack PackAny_signature).

(** The hash of a commit request depends on the prepare signature only,
    not on the digest it is addressed to; and although the packed request
    carries the digest and the signature without the hash, two requests
    made by [newCommitRequest] that pack to the same message are the same
    request, when no two signatures pack to the same value. *)
Theorem commit_request_determined_by_packing (to1 to2 : list byte)
    (s1 s2 : Signature) (c1 c2 : Commit) :
  newCommitRequest to1 s1 = Ok c1 ->
  newCommitRequest to2 s2 = Ok c2 ->
  (s1 = s2 -> GetHash c1 = GetHash c2)
  /\ (forall pb,
        (forall s s' any,
           PackAny_signature s = Ok any -> PackAny_signature s' = Ok any -> s = s') ->
        Commit_Pack c1 = Ok pb -> Commit_Pack c2 = Ok pb -> c1 = c2).
Proof.
  unfold Requests.newCommitRequest. intros H1 H2.
  destruct (MarshalBinary s1) as [b1|e] eqn:Hb1; [|discriminate].
  destruct (MarshalBinary s2) as [b2|e] eqn:Hb2; [|discriminate].
  inversion H1; subst c1. inversion H2; subst c2. simpl. split.
  - intros <-. congruence.
  - intros pb Hinj. unfold Requests.Commit_Pack. simpl.
    destruct (PackAny_signature s1) as [a1|e] eqn:Ha1; [|discriminate].
    destruct (PackAny_signature s2) as [a2|e] eqn:Ha2; [|discriminate].
    intros [= <-] [= Hto Hany]. subst a2.
    assert (s1 = s2) as <- by (eapply Hinj; eassumption).
    congruence.
Qed.

End RequestsMore.

(** Two requests on the same signature [0a 0b] for two digests, and the
    packing of one of them. *)
Lemma commit_request_determined_by_packing_witness :
  exists c1 c2,
    Requests.newCommitRequest (Processor.MarshalBinary (Types := Sample.types))
      [x01] [x0a; x0b] = Ok c1
    /\ Requests.newCommitRequest (Processor.MarshalBinary (Types := Sample.types))
         [x02] [x0a; x0b] = Ok c2
    /\ Requests.GetHash c1 = Requests.GetHash c2.
Proof.
  eexists _, _. split; [reflexivity|]. split; [reflexivity|].
  destruct (commit_request_determined_by_packing (Any := list byte)
              (Processor.MarshalBinary (Types := Sample.types)) (fun s => Ok s)
              [x01] [x02] [x0a; x0b] [x0a; x0b] _ _ eq_refl eq_refl) as [Hhash _].
  apply Hhash. reflexivity.
Defined.

(** ** The JSON format of the transactions *)

Section TxJsonFacts.
Import TxJson.

Context {ClientTransaction ServerTransaction : Type}.
Context {Identity Signature ClientTask ServerTask HashFactory : Type}.
Variable GetNonce : ClientTransaction -> N.
Variable GetIdentity : ClientTransaction -> Identity.
Variable GetSignature : ClientTransaction -> Signature.
Variable GetTask : ClientTransaction -> ClientTask.
Variable client_of : ServerTransaction -> ClientTransaction.
Variable KeyOf : ClientTask -> string.
Variable Identity_Serialize : Identity -> result (list byte).
Variable Signature_Serialize : Signature -> result (list byte).
Variable Task_Serialize : ClientTask -> result (list byte).
Variable Marshal : Transaction -> result (list byte).
Variable Unmarshal : list byte -> result Transaction.
Variable NewServerTransaction :
  list (@ServerTransactionOption Identity Signature ServerTask HashFactory) ->
  result ServerTransaction.
Variable GetFactory_Identity : (list byte -> result Identity) + string.
Variable GetFactory_Signature : (list byte -> result Signature) + string.
Variable GetFactory_Task :
  (string -> option (list byte -> result (@deserialized ServerTask))) + string.

Local Abbreviation Message := (@Message ClientTransaction ServerTransaction).
Local Abbreviation txFormat := (@txFormat HashFactory).
Local Abbreviation txFormat_Encode :=
  (txFormat_Encode (HashFactory := HashFactory) GetNonce GetIdentity GetSignature
     GetTask client_of KeyOf Identity_Serialize Signature_Serialize Task_Serialize
     Marshal).
Local Abbreviation txFormat_Decode :=
  (txFormat_Decode (ClientTransaction := ClientTransaction) Unmarshal
     NewServerTransaction GetFactory_Identity GetFactory_Signature GetFactory_Task).

Local Abbreviation client_part := (client_part client_of).

(** The options [Decode] gives to the constructor. *)
Local Abbreviation options_of tx task :=
  [WithNonce (HashFactory := HashFactory) (GetNonce tx);
   WithIdentity (GetIdentity tx) (GetSignature tx); WithTask task].


(** What [Decode] needs to return a transaction: the three factories of
    the right kind, a task factory for the type of the task, and the four
    parts decoded; the message is then a server transaction made by the
    constructor.  It panics exactly when, the identity and the signature
    decoded, the task factory returns a message that is not a server task. *)
Theorem txFormat_Decode_outcome (f : txFormat) (data : list byte) :
  (forall msg, txFormat_Decode f data = Return (Ok msg) ->
     exists m PublicKeyOf SignatureOf Get taskFac ident sig task stx opts,
       Unmarshal data = Ok m
       /\ GetFactory_Identity = inl PublicKeyOf
       /\ PublicKeyOf (Transaction_Identity m) = Ok ident
       /\ GetFactory_Signature = inl SignatureOf
       /\ SignatureOf (Transaction_Signature m) = Ok sig
       /\ GetFactory_Task = inl Get
       /\ Get (Task_Type (Transaction_Task m)) = Some taskFac
       /\ taskFac (Task_Value (Transaction_Task m)) = Ok (IsServerTask task)
       /\ NewServerTransaction
            ([WithNonce (Transaction_Nonce m); WithIdentity ident sig; WithTask task]
             ++ opts) = Ok stx
       /\ msg = ServerTransactionMsg stx)
  /\ (txFormat_Decode f data = Panic <->
      exists m ident sig Get taskFac t,
        Unmarshal data = Ok m
        /\ decodeIdentity GetFactory_Identity (Transaction_Identity m) = Ok ident
        /\ decodeSignature GetFactory_Signature (Transaction_Signature m) = Ok sig
        /\ GetFactory_Task = inl Get
        /\ Get (Task_Type (Transaction_Task m)) = Some taskFac
        /\ taskFac (Task_Value (Transaction_Task m)) = Ok (NotServerTask t)).
Proof.
  unfold TxJson.txFormat_Decode, decodeTask.
  destruct (Unmarshal data) as [m|e] eqn:Hm.
  2:{ split; [discriminate|]. split; [discriminate|].
      intros (m & ? & ? & ? & ? & ? & [=] & _). }
  destruct (decodeIdentity _ _) as [ident|e] eqn:Hi.
  2:{ split; [discriminate|]. split; [discriminate|].
      intros (m' & ? & ? & ? & ? & ? & [= <-] & Habs & _). congruence. }
  destruct (decodeSignature _ _) as [sig|e] eqn:Hs.
  2:{ split; [discriminate|]. split; [discriminate|].
      intros (m' & ? & ? & ? & ? & ? & [= <-] & _ & Habs & _). congruence. }
  destruct GetFactory_Task as [Get|t] eqn:Hfac.
  2:{ split; [discriminate|]. split; [discriminate|].
      intros (m' & ? & ? & ? & ? & ? & _ & _ & _ & [=] & _). }
  destruct (Get _) as [taskFac|] eqn:Hget.
  2:{ split; [discriminate|]. split; [discriminate|].
      intros (m' & ? & ? & Get' & ? & ? & [= <-] & _ & _ & [= <-] & Habs & _).
      congruence. }
  destruct (taskFac _) as [[task|t]|e] eqn:Htask.
  - split.
    + intros msg Hrun.
      unfold decodeIdentity in Hi. destruct GetFactory_Identity as [PublicKeyOf|];
        [|discriminate].
      unfold decodeSignature in Hs. destruct GetFactory_Signature as [SignatureOf|];
        [|discriminate].
      exists m, PublicKeyOf, SignatureOf, Get, taskFac, ident, sig, task.
      destruct (hashFactory f) as [hf|];
        destruct (NewServerTransaction _) as [stx|e] eqn:Hnew; inversion Hrun; subst msg.
      * exists stx, [WithHashFactory hf]. repeat split; done.
      * exists stx, []. rewrite app_nil_r. repeat split; done.
    + split.
      * destruct (NewServerTransaction _); discriminate.
      * intros (m' & ? & ? & Get' & taskFac' & ? & [= <-] & _ & _ & [= <-] & Hget' & Hno).
        rewrite Hget in Hget'. inversion Hget'; subst taskFac'. congruence.
  - split; [discriminate|]. split; [|reflexivity].
    intros _. exists m, ident, sig, Get, taskFac, t. repeat split; done.
  - split; [discriminate|]. split; [discriminate|].
    intros (m' & ? & ? & Get' & taskFac' & ? & [= <-] & _ & _ & [= <-] & Hget' & Hno).
    rewrite Hget in Hget'. inversion Hget'; subst taskFac'. congruence.
Qed.

End TxJsonFacts.

Section TxSampleRuns.
Import TxJson TxSample.

Lemma sample_json_Transaction (m : Transaction) (bytes : list byte) :
  Marshal m = Ok bytes -> Unmarshal bytes = Ok m.
Proof.
  destruct m as [nonce ident sig [type value]]. unfold Marshal. simpl.
  destruct (Byte.of_N nonce) as [n|] eqn:Hn; [|discriminate].
  destruct ident as [|i [|]]; try discriminate.
  destruct sig as [|s [|]]; try discriminate.
  destruct (String.eqb type "put") eqn:Htype; [|discriminate].
  apply String.eqb_eq in Htype. subst type.
  intros [= <-]. simpl. apply Byte.to_of_N in Hn. rewrite Hn. reflexivity.
Qed.


(** The same bytes decoded: the task factory found is the one of ["put"]. *)
Lemma txFormat_Decode_outcome_witness :
  exists stx,
    Decode [x09; x0a; x0b; x01; x02] = Return (Ok (ServerTransactionMsg stx))
    /\ tx_task stx = [x01; x02].
Proof.
  destruct (txFormat_Decode_outcome (ClientTransaction := tx) Unmarshal
              NewServerTransaction
              (inl bytes_factory) (inl bytes_factory) (inl task_factories)
              {| hashFactory := None |} [x09; x0a; x0b; x01; x02]) as [Hreturns _].
  destruct (Hreturns (ServerTransactionMsg tx9) eq_refl)
    as (m & _ & _ & _ & _ & _ & _ & _ & stx & _ & _ & _ & _ & _ & _ & _ & _ & _ & _ & Hmsg).
  inversion Hmsg; subst stx. exists tx9. split; reflexivity.
Defined.

End TxSampleRuns.

(** The keys 3 and 0 for two addresses: the second key is refused; the nil
    pointer is the message that makes [FromProto] panic. *)
Lemma FromProto_panics_only_on_nil_pointer_witness :
  Roster.FromProto Sample.FromText Sample.FromProto
    (Roster.RosterPb [[x01]; [x01; x02]] [3%nat; 0%nat])
  = Return (Err (Errorf "couldn't decode public key" (Failure "no key")))
  /\ Roster.FromProto Sample.FromText Sample.FromProto Roster.NilRosterPb = Panic.
Proof.
  split.
  - destruct (FromProto_panics_only_on_nil_pointer Sample.FromText Sample.FromProto
                (Roster.RosterPb [[x01]; [x01; x02]] [3%nat; 0%nat]))
      as (_ & _ & res & Hrun & Hres).
    rewrite Hrun. vm_compute in Hrun. inversion Hrun; subst res. reflexivity.
  - destruct (FromProto_panics_only_on_nil_pointer Sample.FromText Sample.FromProto
                Roster.NilRosterPb) as ([_ Hnil] & _).
    apply Hnil. reflexivity.
Defined.
